(** * adb-helper: the screen hierarchy, element and resolution caches

    A shallow embedding of [Screen.getScreenHierarchy], [Screen.findElement],
    [Screen.getScreenResolution] (class [Screen], which extends
    [CacheManagement]) and of [UIAttributes.checkAttribute], followed by the
    properties the specification states about them.

    Conventions of the embedding:
    - a [UIHierarchy] object is a finite map from attribute names to values;
      a value is a boolean or a string (the data model of the flattened
      hierarchy), and reading a missing property gives [None], which stands
      for JavaScript's [undefined];
    - the instance fields of [CacheManagement] are an explicit state record,
      threaded through the operations by a small state/exception/trace monad;
    - the device behind [execCommand] is an argument of every operation, so
      that two successive calls can face two different devices;
    - [xml2js.parseStringPromise], [JSON.stringify] and [fs.writeFileSync]
      are library functions and are taken as section variables; a write can
      fail, as a command can;
    - a JavaScript number is modelled by a natural number, which is exact for
      the integers up to 2^53: every statement about a parsed value, a sum or
      a printed number carries that bound ([exactNumber]);
    - a property read [element[key]] is the lookup of an own key; the two
      differ only for the member names of [Object.prototype]
      ([objectPrototypeNames]), which the statements about the projection
      exclude. *)

From stdpp Require Import gmap strings list fin_maps.
From Stdlib Require Import Ascii String NArith.
From Stdlib Require Import Decimal DecimalString DecimalPos DecimalN.

Local Open Scope string_scope.
Local Open Scope list_scope.

(** ** Values and element records *)

Inductive value : Type :=
  | VBool (b : bool)
  | VStr (s : string).

#[global] Instance value_eq_dec : EqDecision value.
Proof. solve_decision. Defined.

(** [interface UIHierarchy { ...; [key: string]: any }]. *)
Abbreviation UIHierarchy := (gmap string value).

(** [a === b] on property reads: both sides are [undefined], a boolean or a
    string, and strict equality on those is equality of type and value. *)
Definition strictEq (a b : option value) : bool := bool_decide (a = b).

(** JavaScript truthiness of a property read: [undefined], [false] and the
    empty string are falsy. *)
Definition truthy (a : option value) : bool :=
  match a with
  | None => false
  | Some (VBool b) => b
  | Some (VStr s) => negb (String.eqb s "")
  end.

(** ** The parsed markup document

    [xml2js] gives every element an optional [$] member (its attributes, when
    it has some) and an optional [node] member (the array of its child [node]
    elements, when it has some). *)

#[local] Unset Elimination Schemes.
Inductive xmlNode : Type :=
  XmlNode (attrs : option (gmap string string)) (children : option (list xmlNode)).
#[local] Set Elimination Schemes.

Definition nodeAttrs (n : xmlNode) : option (gmap string string) :=
  match n with XmlNode a _ => a end.

Definition nodeChildren (n : xmlNode) : list xmlNode :=
  match n with XmlNode _ (Some cs) => cs | XmlNode _ None => [] end.

(** The result of [parseStringPromise]: an object with one member, named after
    the root tag. *)
Record xmlDocument : Type := XmlDocument {
  rootName : string;
  rootNode : xmlNode
}.

(** ** Tree flattener: [extractNodes] *)

(** [value === "false" ? false : value === "true" ? true : value] *)
Definition coerce (v : string) : value :=
  if String.eqb v "false" then VBool false
  else if String.eqb v "true" then VBool true
  else VStr v.

(** [const element = {}; for (const [key, value] of Object.entries(node['$']))
    element[key] = coerce value] *)
Definition buildElement (attrs : gmap string string) : UIHierarchy :=
  foldl (fun element kv => <[kv.1 := coerce kv.2]> element) ∅ (map_to_list attrs).

(** [extractNodes] pushes onto the array [elements] of the enclosing call;
    the array is passed in and returned. *)
Fixpoint extractNodes (node : xmlNode) (elements : list UIHierarchy)
  : list UIHierarchy :=
  match node with
  | XmlNode attrs children =>
      let elements :=
        match attrs with
        | Some a => elements ++ [buildElement a]
        | None => elements
        end in
      match children with
      | Some cs => foldl (fun elements childNode => extractNodes childNode elements) elements cs
      | None => elements
      end
  end.

(** The records a node contributes by itself. *)
Definition ownRecord (n : xmlNode) : list UIHierarchy :=
  match nodeAttrs n with
  | Some a => [buildElement a]
  | None => []
  end.

(** [d] lies strictly below [n] in the tree. *)
Inductive descendant (d : xmlNode) : xmlNode -> Prop :=
  | desc_child n : In d (nodeChildren n) -> descendant d n
  | desc_below n c : In c (nodeChildren n) -> descendant d c -> descendant d n.

(** ** The state of a [CacheManagement] instance *)

Record Resolution : Type := mkResolution { width : N; height : N }.

Record CacheManagement : Type := mkCache {
  cachedScreenHierarchy : option (list UIHierarchy);
  cachedElement : option UIHierarchy;
  cachedScreenResolution : option Resolution;
  currentActivity : option string
}.

(** A freshly constructed instance: every field is [null]. *)
Definition newCache : CacheManagement := mkCache None None None None.

Definition set_cachedScreenHierarchyValue (v : option (list UIHierarchy))
  (c : CacheManagement) : CacheManagement :=
  mkCache v (cachedElement c) (cachedScreenResolution c) (currentActivity c).

Definition set_cachedElementValue (v : option UIHierarchy)
  (c : CacheManagement) : CacheManagement :=
  mkCache (cachedScreenHierarchy c) v (cachedScreenResolution c) (currentActivity c).

Definition set_cachedScreenResolution (v : option Resolution)
  (c : CacheManagement) : CacheManagement :=
  mkCache (cachedScreenHierarchy c) (cachedElement c) v (currentActivity c).

(** ** Effects: state, exceptions and a trace of the outside world *)

Inductive event : Type :=
  | ExecCommand (command : string)
  | WriteFileSync (path data : string).

(** A promise settles by resolving with a value or rejecting with an error. *)
Inductive outcome (A : Type) : Type :=
  | Returned (a : A)
  | Thrown (e : string).
Arguments Returned {A} a.
Arguments Thrown {A} e.

(** What a call leaves behind: the fields of [this], the commands and file
    writes it issued (oldest first), and how it settled. *)
Record run (A : Type) : Type := Run {
  final : CacheManagement;
  trace : list event;
  result : outcome A
}.
Arguments Run {A} final trace result.
Arguments final {A} r.
Arguments trace {A} r.
Arguments result {A} r.

Definition M (A : Type) : Type := CacheManagement -> run A.

Definition ret {A} (a : A) : M A := fun this => Run this [] (Returned a).

Definition throw {A} (e : string) : M A := fun this => Run this [] (Thrown e).

Definition bind {A B} (m : M A) (k : A -> M B) : M B :=
  fun this =>
    let r := m this in
    match result r with
    | Returned a =>
        let r' := k a (final r) in
        Run (final r') (trace r ++ trace r') (result r')
    | Thrown e => Run (final r) (trace r) (Thrown e)
    end.

(** [try { m } catch (error) { handler error }] *)
Definition tryCatch {A} (m : M A) (handler : string -> M A) : M A :=
  fun this =>
    let r := m this in
    match result r with
    | Returned a => r
    | Thrown e =>
        let r' := handler e (final r) in
        Run (final r') (trace r ++ trace r') (result r')
    end.

Definition getThis : M CacheManagement := fun this => Run this [] (Returned this).

Definition modifyThis (f : CacheManagement -> CacheManagement) : M unit :=
  fun this => Run (f this) [] (Returned tt).

Definition emit (e : event) : M unit := fun this => Run this [e] (Returned tt).

Notation "'let!' x ':=' m 'in' k" := (bind m (fun x => k))
  (at level 10, x name, m at level 100, k at level 200).
Notation "'do!' m 'in' k" := (bind m (fun _ => k))
  (at level 10, m at level 100, k at level 200).

(** The device as seen through [ADBShell]: a command is answered with the
    trimmed standard output, or the promise is rejected. *)
Definition Device : Type := string -> outcome string.

(** [private async execCommand(command) { return await ADBShell(command) }] *)
Definition execCommand (device : Device) (command : string) : M string :=
  fun this => Run this [ExecCommand command] (device command).

(** [if (outputFilePath) fs.writeFileSync(outputFilePath, data, 'utf8')]: a
    missing path and the empty path are both falsy. The attempted write is
    recorded in the trace, and it returns or throws as [fs.writeFileSync]
    does. *)
Definition writeIfPath (writeFileSync : string -> string -> outcome unit)
  (outputFilePath : option string) (data : string) : M unit :=
  match outputFilePath with
  | Some p =>
      if String.eqb p "" then ret tt
      else fun this => Run this [WriteFileSync p data] (writeFileSync p data)
  | None => ret tt
  end.

(** ** The pattern [/(\d+)x(\d+)/] and [parseInt(_, 10)] *)

Definition isDigit (c : ascii) : bool :=
  (48 <=? nat_of_ascii c)%nat && (nat_of_ascii c <=? 57)%nat.

(** The longest run of digits at the head of the text, and what follows. *)
Fixpoint spanDigits (s : list ascii) : list ascii * list ascii :=
  match s with
  | c :: s' =>
      if isDigit c then let '(ds, rest) := spanDigits s' in (c :: ds, rest)
      else ([], s)
  | [] => ([], [])
  end.

(** A match of the pattern that starts at the head of the text. Both groups
    are greedy; giving back digits of the first group cannot help, since the
    next character would have to be the letter x. *)
Definition matchHere (s : list ascii) : option (list ascii * list ascii) :=
  let '(d1, r1) := spanDigits s in
  match d1, r1 with
  | _ :: _, c :: r2 =>
      if Ascii.eqb c "x" then
        let '(d2, _) := spanDigits r2 in
        match d2 with
        | _ :: _ => Some (d1, d2)
        | [] => None
        end
      else None
  | _, _ => None
  end.

(** [String.prototype.match] without the [g] flag: the match at the leftmost
    position where one exists; [None] stands for [null]. *)
Fixpoint regexMatch (s : list ascii) : option (list ascii * list ascii) :=
  match matchHere s with
  | Some groups => Some groups
  | None =>
      match s with
      | _ :: s' => regexMatch s'
      | [] => None
      end
  end.

Definition digitValue (c : ascii) : N := N.of_nat (nat_of_ascii c - 48).

(** [parseInt(ds, 10)] on a non-empty string of decimal digits: the integer
    the digits write. This is the number JavaScript returns whenever that
    integer does not exceed 2^53; beyond, JavaScript rounds. *)
Definition parseInt (ds : list ascii) : N :=
  foldl (fun acc c => (10 * acc + digitValue c)%N) 0%N ds.

(** ** Class [Screen] *)

Inductive outputFormat : Type := JSON | XML.

(** [Promise<UIHierarchy[] | string>] *)
Inductive hierarchyOutput : Type :=
  | Flattened (elements : list UIHierarchy)
  | RawMarkup (hierarchyXML : string).

(** [Promise<UIHierarchy | UIHierarchy[] | null>] *)
Inductive matchResult : Type :=
  | NoMatch
  | SingleElement (element : UIHierarchy)
  | ManyElements (elements : list UIHierarchy).

(** The loop of [isMatching] over [Object.entries(conditions)], with its
    early [return false]. *)
Fixpoint isMatchingEntries (entries : list (string * value)) (element : UIHierarchy)
  : bool :=
  match entries with
  | (key, v) :: rest =>
      if negb (strictEq (element !! key) (Some v)) then false
      else isMatchingEntries rest element
  | [] => true
  end.

Definition isMatching (conditions : UIHierarchy) (element : UIHierarchy) : bool :=
  isMatchingEntries (map_to_list conditions) element.

(** [applyAttributesFilter]: with [attributes] given, copy into a fresh object
    every listed attribute whose value on the element is truthy. The read
    [element[attr]] is the lookup of an own key, which is what JavaScript
    reads for every name that [Object.prototype] does not define. *)
Definition applyAttributesFilter (attributes : option (list string))
  (element : UIHierarchy) : UIHierarchy :=
  match attributes with
  | Some attrs =>
      foldl (fun filteredElement attr =>
               if truthy (element !! attr)
               then from_option (fun v => <[attr := v]> filteredElement)
                                filteredElement (element !! attr)
               else filteredElement)
            ∅ attrs
  | None => element
  end.

Section Screen.

(** [this.deviceId] *)
Variable deviceId : string.
(** [parseStringPromise] of xml2js *)
Variable parseStringPromise : string -> outcome xmlDocument.
(** [elements => JSON.stringify(elements, null, 2)] *)
Variable stringify : list UIHierarchy -> string.
(** [(path, data) => fs.writeFileSync(path, data, 'utf8')] *)
Variable writeFileSync : string -> string -> outcome unit.

Definition dumpCommand : string :=
  "adb -s " ++ deviceId ++ " exec-out uiautomator dump /dev/tty".

Definition sizeCommand : string :=
  "adb -s " ++ deviceId ++ " shell wm size".

(** [hierarchyJSON.hierarchy], handed to [extractNodes]: when the root tag
    has another name the member is [undefined] and reading [node['$']]
    throws. *)
Definition hierarchyMember (hierarchyJSON : xmlDocument) : M xmlNode :=
  if String.eqb (rootName hierarchyJSON) "hierarchy"
  then ret (rootNode hierarchyJSON)
  else throw "TypeError".

Definition getScreenHierarchy (device : Device) (format : outputFormat)
  (outputFilePath : option string) : M hierarchyOutput :=
  let! this := getThis in
  match cachedScreenHierarchy this with
  | Some cached => ret (Flattened cached)
  | None =>
      let! hierarchyXML := execCommand device dumpCommand in
      match format with
      | XML =>
          do! writeIfPath writeFileSync outputFilePath hierarchyXML in
          ret (RawMarkup hierarchyXML)
      | JSON =>
          let! hierarchyJSON := (fun this => Run this [] (parseStringPromise hierarchyXML)) in
          let! root := hierarchyMember hierarchyJSON in
          let elements := extractNodes root [] in
          do! writeIfPath writeFileSync outputFilePath (stringify elements) in
          do! modifyThis (set_cachedScreenHierarchyValue (Some elements)) in
          ret (Flattened elements)
      end
  end.

(** [screenHierarchyJSON || (await this.getScreenHierarchy('JSON') as UIHierarchy[])]:
    an array, even an empty one, is truthy. *)
Definition obtainElements (device : Device)
  (screenHierarchyJSON : option (list UIHierarchy)) : M (list UIHierarchy) :=
  match screenHierarchyJSON with
  | Some elements => ret elements
  | None =>
      let! fetched := getScreenHierarchy device JSON None in
      match fetched with
      | Flattened elements => ret elements
      | RawMarkup _ => throw "TypeError"
      end
  end.

Definition findElement (device : Device) (conditions : UIHierarchy)
  (screenHierarchyJSON : option (list UIHierarchy))
  (attributes : option (list string)) : M matchResult :=
  let! this := getThis in
  match cachedElement this with
  | Some cached => ret (SingleElement cached)
  | None =>
      let! elements := obtainElements device screenHierarchyJSON in
      let matchedElements := List.filter (isMatching conditions) elements in
      match matchedElements with
      | [] => ret NoMatch
      | _ :: _ =>
          let result := List.map (applyAttributesFilter attributes) matchedElements in
          match result with
          | [only] =>
              do! modifyThis (set_cachedElementValue (Some only)) in
              ret (SingleElement only)
          | _ => ret (ManyElements result)
          end
      end
  end.

Definition getScreenResolution (device : Device) : M (option Resolution) :=
  let! this := getThis in
  match cachedScreenResolution this with
  | Some cached => ret (Some cached)
  | None =>
      tryCatch
        (let! resolutionString := execCommand device sizeCommand in
         match regexMatch (list_ascii_of_string resolutionString) with
         | Some (g1, g2) =>
             let resolution := mkResolution (parseInt g1) (parseInt g2) in
             do! modifyThis (set_cachedScreenResolution (Some resolution)) in
             ret (Some resolution)
         | None => ret None
         end)
        (fun _ => ret None)
  end.

End Screen.

(** ** Class [UIAttributes] *)

Inductive attributeName : Type :=
  | checkable | checked | clickable | enabled | focusable
  | focused | scrollable | long_clickable | password | selected.

Definition attributeKey (a : attributeName) : string :=
  match a with
  | checkable => "checkable" | checked => "checked" | clickable => "clickable"
  | enabled => "enabled" | focusable => "focusable" | focused => "focused"
  | scrollable => "scrollable" | long_clickable => "long-clickable"
  | password => "password" | selected => "selected"
  end.

(** [x == null] and [x == undefined] both hold exactly for a missing value. *)
Definition looseNull {A} (x : option A) : bool :=
  match x with None => true | Some _ => false end.

(** The last test of [checkAttribute], on the element it resolved:
    [if (elementToCheck[attribute] !== undefined)
       return elementToCheck[attribute] === true;
     return null] *)
Definition readAttribute (elementToCheck : UIHierarchy) (attribute : attributeName)
  : option bool :=
  if negb (strictEq (elementToCheck !! attributeKey attribute) None)
  then Some (strictEq (elementToCheck !! attributeKey attribute) (Some (VBool true)))
  else None.

(** [checkAttribute(attribute, element?)] on an instance whose fields are
    [this]; [None] stands for [null]. The guard is written as in the source,
    where [&&] binds tighter than [||]; [element || this.cachedElementValue]
    takes the element when one is given, an object being truthy. *)
Definition checkAttribute (attribute : attributeName) (element : option UIHierarchy)
  (this : CacheManagement) : option bool :=
  if looseNull (cachedElement this)
     || (looseNull (cachedElement this) && looseNull element)
     || looseNull element
  then None
  else
    let elementToCheck :=
      match element with
      | Some e => Some e
      | None => cachedElement this
      end in
    match elementToCheck with
    | None => None
    | Some e => readAttribute e attribute
    end.

Definition isCheckable := checkAttribute checkable.
Definition checkChecked := checkAttribute checked.
Definition isClickable := checkAttribute clickable.
Definition isEnabled := checkAttribute enabled.
Definition isFocusable := checkAttribute focusable.
Definition isFocused := checkAttribute focused.
Definition isScrollable := checkAttribute scrollable.
Definition isLongClickable := checkAttribute long_clickable.
Definition isPassword := checkAttribute password.
Definition isSelected := checkAttribute selected.

(** ** The specification's vocabulary *)

(** A record matches a condition when, for every key of the condition, the
    record has that key with exactly the expected value. *)
Definition matchesCondition (conditions element : UIHierarchy) : Prop :=
  forall key expected,
    conditions !! key = Some expected -> element !! key = Some expected.

(** [retains P l kept]: [kept] is [l] with exactly the elements satisfying [P]
    kept, in their order and with their multiplicity. *)
Inductive retains {A : Type} (P : A -> Prop) : list A -> list A -> Prop :=
  | retains_nil : retains P [] []
  | retains_keep x l kept : P x -> retains P l kept -> retains P (x :: l) (x :: kept)
  | retains_drop x l kept : ~ P x -> retains P l kept -> retains P (x :: l) kept.

(** A MatchResult: no match, a single record, or an ordered sequence. *)
Definition asMatchResult (records : list UIHierarchy) : matchResult :=
  match records with
  | [] => NoMatch
  | [only] => SingleElement only
  | _ => ManyElements records
  end.

(** The records of the nodes strictly below [n], in document order. *)
Definition recordsBelow (n : xmlNode) : list UIHierarchy :=
  flat_map (fun c => extractNodes c []) (nodeChildren n).

(** The claim that the root is skipped for record extraction: the flattened
    document holds the records of the root's descendants and nothing else. *)
Definition rootSkipped (root : xmlNode) : Prop :=
  extractNodes root [] = recordsBelow root.

Definition allDigits (ds : list ascii) : Prop := Forall (fun c => isDigit c = true) ds.

(** The text does not go on with a digit. *)
Definition noDigitAhead (s : list ascii) : Prop :=
  match s with
  | c :: _ => isDigit c = false
  | [] => True
  end.

(** Some [<integer>x<integer>] starts at the head of the text. *)
Definition patternAtHead (s : list ascii) : Prop :=
  exists g1 g2 rest,
    s = g1 ++ "x"%char :: g2 ++ rest /\ g1 <> [] /\ g2 <> [] /\ allDigits g1 /\ allDigits g2.

(** The text contains an [<integer>x<integer>] substring. *)
Definition containsPattern (s : list ascii) : Prop :=
  exists before after, s = before ++ after /\ patternAtHead after.

(** [g1] and [g2] are the integers of the first [<integer>x<integer>]
    substring of [s]: no such substring starts further left, and the second
    integer extends as far as digits go. *)
Definition firstPattern (s g1 g2 : list ascii) : Prop :=
  exists before rest,
    s = before ++ g1 ++ "x"%char :: g2 ++ rest
    /\ g1 <> [] /\ g2 <> [] /\ allDigits g1 /\ allDigits g2
    /\ noDigitAhead rest
    /\ forall skipped c tail,
         before = skipped ++ c :: tail ->
         ~ patternAtHead (c :: tail ++ g1 ++ "x"%char :: g2 ++ rest).

(** The resolution of the target record as the documentation of
    [checkAttribute] gives it: the element argument when one is given,
    otherwise the cached element. *)
Definition resolvedElement (element : option UIHierarchy) (this : CacheManagement)
  : option UIHierarchy :=
  match element with
  | Some e => Some e
  | None => cachedElement this
  end.

(** ** Concrete inputs *)

Definition btn1 : UIHierarchy :=
  {[ "resourceId" := VStr "btn1"; "clickable" := VBool true ]}.

Definition btn2 : UIHierarchy :=
  {[ "resourceId" := VStr "btn2"; "clickable" := VBool false ]}.

(** The tree of
    [<hierarchy rotation='0'><node text='ok' checked='true'><node index='1'/></node></hierarchy>]. *)
Definition sampleLeaf : xmlNode := XmlNode (Some {[ "index" := "1" ]}) None.

Definition sampleChild : xmlNode :=
  XmlNode (Some {[ "text" := "ok"; "checked" := "true" ]}) (Some [sampleLeaf]).

Definition sampleRoot : xmlNode :=
  XmlNode (Some {[ "rotation" := "0" ]}) (Some [sampleChild]).

(** The markup of [sampleRoot], as the device dumps it. *)
Definition sampleMarkup : string :=
  "<hierarchy rotation='0'><node text='ok' checked='true'><node index='1'/></node></hierarchy>".

(** [parseStringPromise] on the one document used below. *)
Definition sampleParser : string -> outcome xmlDocument :=
  fun hierarchyXML =>
    if String.eqb hierarchyXML sampleMarkup
    then Returned (XmlDocument "hierarchy" sampleRoot)
    else Thrown "Error: Non-whitespace before first tag.".

(** A disk on which every write succeeds, and one on which none does. *)
Definition sampleWrite : string -> string -> outcome unit := fun _ _ => Returned tt.

Definition readOnlyDisk : string -> string -> outcome unit :=
  fun _ _ => Thrown "EACCES: permission denied".

Definition sampleStringify : list UIHierarchy -> string := fun _ => "[]".

Definition sampleDevice : Device :=
  fun command =>
    if String.eqb command "adb -s emulator-5554 shell wm size"
    then Returned "Physical size: 1080x2400"
    else if String.eqb command "adb -s emulator-5554 exec-out uiautomator dump /dev/tty"
    then Returned sampleMarkup
    else Returned "".

Definition silentDevice : Device := fun _ => Returned "".

Definition brokenDevice : Device := fun _ => Thrown "COMMAND_FAILED".

(** ** Numbers in command texts *)

(** A template literal [${n}] for a number that is a non-negative integer:
    its decimal digits, without leading zeros. This is what JavaScript prints
    for the integers up to 2^53 (from 10^21 on it prints an exponent). *)
Definition numberToString (n : N) : string :=
  NilEmpty.string_of_uint (N.to_uint n).

(** [${s / 2}] for a non-negative integer [s]: an odd [s] gives a number with
    the fraction one half, printed as [k.5]. This is what JavaScript computes
    and prints for [s] up to 2^53. *)
Definition halfToString (s : N) : string :=
  if N.even s then numberToString (s / 2)
  else (numberToString (s / 2) ++ ".5")%string.

(** ** The pattern [/\[(\d+),(\d+)\]\[(\d+),(\d+)\]/] *)

(** A literal character of the pattern. *)
Definition expectChar (c : ascii) (s : list ascii) : option (list ascii) :=
  match s with
  | c' :: rest => if Ascii.eqb c' c then Some rest else None
  | [] => None
  end.

(** [(\d+)] followed by the literal [c]: the group is greedy, and giving back
    digits cannot help, [c] not being a digit. *)
Definition digitsThen (c : ascii) (s : list ascii) : option (list ascii * list ascii) :=
  let '(ds, rest) := spanDigits s in
  match ds with
  | _ :: _ =>
      match expectChar c rest with
      | Some rest' => Some (ds, rest')
      | None => None
      end
  | [] => None
  end.

Definition boundsGroups : Type := list ascii * list ascii * list ascii * list ascii.

Definition matchBoundsHere (s : list ascii) : option boundsGroups :=
  match expectChar "[" s with
  | None => None
  | Some r0 =>
  match digitsThen "," r0 with
  | None => None
  | Some (g1, r1) =>
  match digitsThen "]" r1 with
  | None => None
  | Some (g2, r2) =>
  match expectChar "[" r2 with
  | None => None
  | Some r3 =>
  match digitsThen "," r3 with
  | None => None
  | Some (g3, r4) =>
  match digitsThen "]" r4 with
  | None => None
  | Some (g4, _) => Some (g1, g2, g3, g4)
  end end end end end end.

(** [bounds.match(...)]: the leftmost match, or [None] for [null]. *)
Fixpoint boundsMatch (s : list ascii) : option boundsGroups :=
  match matchBoundsHere s with
  | Some groups => Some groups
  | None =>
      match s with
      | _ :: s' => boundsMatch s'
      | [] => None
      end
  end.

(** ** Class [ScreenInteractions]

    The class keeps no cache: a call leaves a trace and settles. *)

Definition IO (A : Type) : Type := (list event * outcome A)%type.

Definition ioRet {A} (a : A) : IO A := ([], Returned a).

Definition ioThrow {A} (e : string) : IO A := ([], Thrown e).

Definition ioBind {A B} (m : IO A) (k : A -> IO B) : IO B :=
  match m.2 with
  | Returned a => (m.1 ++ (k a).1, (k a).2)
  | Thrown e => (m.1, Thrown e)
  end.

(** [try { m } catch (error) { handler error }] *)
Definition ioCatch {A} (m : IO A) (handler : string -> IO A) : IO A :=
  match m.2 with
  | Returned a => m
  | Thrown e => (m.1 ++ (handler e).1, (handler e).2)
  end.

(** [private async execCommand(command) { return await ADBShell(command) }] *)
Definition ioExec (device : Device) (command : string) : IO string :=
  ([ExecCommand command], device command).

(** [private parseBounds(bounds: string): number[]]; the four numbers are
    those of JavaScript when none exceeds 2^53. *)
Definition parseBounds (bounds : string) : outcome (list N) :=
  match boundsMatch (list_ascii_of_string bounds) with
  | None => Thrown "Format des bounds invalide"
  | Some (g1, g2, g3, g4) =>
      Returned [parseInt g1; parseInt g2; parseInt g3; parseInt g4]
  end.

Section ScreenInteractions.

(** [this.deviceId] *)
Variable deviceId : string.

Definition tapCommand (x y : string) : string :=
  "adb -s " ++ deviceId ++ " shell input tap " ++ x ++ " " ++ y.

Definition swipeCommand (x1 y1 x2 y2 duration : string) : string :=
  "adb -s " ++ deviceId ++ " shell input swipe " ++ x1 ++ " " ++ y1 ++ " "
  ++ x2 ++ " " ++ y2 ++ " " ++ duration.

(** [clickElement(element)]. A [bounds] that passed the truthiness test is the
    boolean [true], which has no [match] method, or a non-empty string. The
    sum, its half and the printed coordinates are those of JavaScript as long
    as the sums do not exceed 2^53. *)
Definition clickElement (device : Device) (element : UIHierarchy) : IO unit :=
  if negb (truthy (element !! "bounds")) then ioRet tt
  else
    match element !! "bounds" with
    | Some (VStr bounds) =>
        match boundsMatch (list_ascii_of_string bounds) with
        | None => ioRet tt
        | Some (x1, y1, x2, y2) =>
            let x := ((parseInt x1 + parseInt x2) / 2)%N in
            let y := ((parseInt y1 + parseInt y2) / 2)%N in
            ioBind (ioExec device (tapCommand (numberToString x) (numberToString y)))
                   (fun _ => ioRet tt)
        end
    | _ => ioThrow "TypeError"
    end.

(** [clickAtCoordinates(x, y)] *)
Definition clickAtCoordinates (device : Device) (x y : N) : IO unit :=
  ioBind (ioExec device (tapCommand (numberToString x) (numberToString y)))
         (fun _ => ioRet tt).

(** [longClickOnElement(element, duration = 1000)]: the centre is not
    rounded. The sums, their halves and the printed numbers are those of
    JavaScript as long as the sums and the duration do not exceed 2^53. *)
Definition longClickOnElement (device : Device) (element : UIHierarchy)
  (duration : option N) : IO unit :=
  let duration := default 1000%N duration in
  if negb (truthy (element !! "bounds")) then ioRet tt
  else
    match element !! "bounds" with
    | Some (VStr bounds) =>
        match parseBounds bounds with
        | Returned [x1; y1; x2; y2] =>
            let x := halfToString (x1 + x2) in
            let y := halfToString (y1 + y2) in
            ioBind (ioExec device (swipeCommand x y x y (numberToString duration)))
                   (fun _ => ioRet tt)
        | Returned _ => ioThrow "TypeError"
        | Thrown e => ioThrow e
        end
    | _ => ioThrow "TypeError"
    end.

(** [longClickAtCoordinates(x, y, duration = 1000)] *)
Definition longClickAtCoordinates (device : Device) (x y : N) (duration : option N)
  : IO unit :=
  let duration := default 1000%N duration in
  ioBind (ioExec device
            (swipeCommand (numberToString x) (numberToString y)
                          (numberToString x) (numberToString y)
                          (numberToString duration)))
         (fun _ => ioRet tt).

Definition screenshotOnDevice : string := "/sdcard/DCIM/screenshot.png".

Definition screencapCommand : string :=
  "adb -s " ++ deviceId ++ " shell screencap -p " ++ screenshotOnDevice.

Definition lsCommand : string :=
  "adb -s " ++ deviceId ++ " shell ls " ++ screenshotOnDevice.

Definition pullCommand (remotePath localPath : string) : string :=
  "adb -s " ++ deviceId ++ " pull " ++ remotePath ++ " " ++ localPath.

(** [takeScreenshot(filePath)]: every error ends in the [catch], which only
    logs it. *)
Definition takeScreenshot (device : Device) (filePath : string) : IO unit :=
  ioCatch
    (ioBind (ioExec device screencapCommand) (fun _ =>
     ioBind (ioExec device lsCommand) (fun checkFileExistence =>
     if String.eqb checkFileExistence ""
     then ioThrow "Screenshot file does not exist on the device."
     else ioBind (ioExec device (pullCommand screenshotOnDevice filePath))
                 (fun _ => ioRet tt))))
    (fun _ => ioRet tt).

End ScreenInteractions.

(** ** Class [Screen]: recording, display mode, orientation, status *)

Section ScreenDisplay.

(** [this.deviceId] *)
Variable deviceId : string.

Definition pkillCommand : string :=
  "adb -s " ++ deviceId ++ " shell pkill -l SIGINT screenrecord".

(** [stopScreenRecording(remotePath = "/sdcard/screenrecord.mp4",
    localPath = "./screenrecord.mp4")] *)
Definition stopScreenRecording (device : Device) (remotePath localPath : option string)
  : M unit :=
  let remotePath := default "/sdcard/screenrecord.mp4" remotePath in
  let localPath := default "./screenrecord.mp4" localPath in
  tryCatch
    (do! execCommand device pkillCommand in
     do! execCommand device (pullCommand deviceId remotePath localPath) in
     ret tt)
    (fun error => throw error).

Definition nightModeCommand (mode : string) : string :=
  "adb -s " ++ deviceId ++ " shell settings put secure ui_night_mode " ++ mode.

Definition enableDarkMode (device : Device) : M unit :=
  tryCatch (do! execCommand device (nightModeCommand "2") in ret tt)
           (fun error => throw error).

Definition disableDarkMode (device : Device) : M unit :=
  tryCatch (do! execCommand device (nightModeCommand "1") in ret tt)
           (fun error => throw error).

Definition setSystemDefaultDisplayMode (device : Device) : M unit :=
  tryCatch (do! execCommand device (nightModeCommand "0") in ret tt)
           (fun error => throw error).

Definition rotationCommand : string :=
  "adb -s " ++ deviceId ++ " shell settings put system accelerometer_rotation 0".

Definition screensaverCommand (v : string) : string :=
  "adb -s " ++ deviceId
  ++ " shell content insert --uri content://settings/system --bind name=screensaver --bind value="
  ++ v.

Definition setLandscapeMode (device : Device) : M unit :=
  tryCatch
    (do! execCommand device rotationCommand in
     do! execCommand device (screensaverCommand "1") in
     ret tt)
    (fun error => throw error).

Definition setPortraitMode (device : Device) : M unit :=
  tryCatch
    (do! execCommand device rotationCommand in
     do! execCommand device (screensaverCommand "0") in
     ret tt)
    (fun error => throw error).

End ScreenDisplay.

(** ** More of the specification's vocabulary *)

(** The nodes of a tree in document order, the node itself first. *)
Fixpoint preorder (n : xmlNode) : list xmlNode :=
  match n with
  | XmlNode _ (Some cs) => n :: flat_map preorder cs
  | XmlNode _ None => [n]
  end.

(** The text of a [bounds] attribute: [[x1,y1][x2,y2]]. *)
Definition boundsText (x1 y1 x2 y2 : N) : string :=
  "[" ++ numberToString x1 ++ "," ++ numberToString y1 ++ "]["
  ++ numberToString x2 ++ "," ++ numberToString y2 ++ "]".

(** No character of the text is a digit. *)
Definition noDigits (s : list ascii) : Prop := Forall (fun c => isDigit c = false) s.

(** A [[x1,y1][x2,y2]] with the four integers [g1] to [g4] starts at the head
    of the text. *)
Definition boundsAtHead (s g1 g2 g3 g4 : list ascii) : Prop :=
  exists rest,
    s = "["%char :: g1 ++ ","%char :: g2 ++ "]"%char :: "["%char
        :: g3 ++ ","%char :: g4 ++ "]"%char :: rest
    /\ (g1 <> [] /\ allDigits g1) /\ (g2 <> [] /\ allDigits g2)
    /\ (g3 <> [] /\ allDigits g3) /\ (g4 <> [] /\ allDigits g4).

(** The text contains a [[x1,y1][x2,y2]]. *)
Definition containsBounds (s : list ascii) : Prop :=
  exists before after g1 g2 g3 g4,
    s = before ++ after /\ boundsAtHead after g1 g2 g3 g4.

(** The file writes a call with this output path makes for this text. *)
Definition fileWrites (outputFilePath : option string) (data : string) : list event :=
  match outputFilePath with
  | Some path => if String.eqb path "" then [] else [WriteFileSync path data]
  | None => []
  end.

(** The display operations of class [Screen] that take no argument. *)
Definition displayOperations (deviceId : string) : list (Device -> M unit) :=
  [enableDarkMode deviceId; disableDarkMode deviceId;
   setSystemDefaultDisplayMode deviceId;
   setLandscapeMode deviceId; setPortraitMode deviceId].

(** An integer that a JavaScript number holds exactly, with exact sums,
    halves and decimal printing: one that does not exceed 2^53. *)
Definition exactNumber (n : N) : Prop := (n <= 9007199254740992)%N.

(** The member names of [Object.prototype]: for these, and only these, the
    read [element[key]] of an object without that own key is not
    [undefined]. *)
Definition objectPrototypeNames : list string :=
  ["constructor"; "__defineGetter__"; "__defineSetter__"; "hasOwnProperty";
   "__lookupGetter__"; "__lookupSetter__"; "isPrototypeOf";
   "propertyIsEnumerable"; "toString"; "valueOf"; "__proto__";
   "toLocaleString"].

(** None of the requested attributes is a member name of [Object.prototype]. *)
Definition ownNames (attrs : list string) : Prop :=
  Forall (fun attr => attr ∉ objectPrototypeNames) attrs.

(** The record [r] holds the attributes [a] with the tokens "true" and
    "false" turned into booleans and every other token kept as a string. *)
Definition coercedFrom (a : gmap string string) (r : UIHierarchy) : Prop :=
  forall key,
    match a !! key with
    | None => r !! key = None
    | Some token =>
        (token = "true" /\ r !! key = Some (VBool true))
        \/ (token = "false" /\ r !! key = Some (VBool false))
        \/ (token <> "true" /\ token <> "false" /\ r !! key = Some (VStr token))
    end.

(** How the write that a call with this output path makes settles; without a
    path, or with the empty path, nothing is written. *)
Definition writeOutcome (writeFileSync : string -> string -> outcome unit)
  (outputFilePath : option string) (data : string) : outcome unit :=
  match outputFilePath with
  | Some path => if String.eqb path "" then Returned tt else writeFileSync path data
  | None => Returned tt
  end.

(** The write that a call with this output path makes, if any, succeeds. *)
Definition writeSucceeds (writeFileSync : string -> string -> outcome unit)
  (outputFilePath : option string) (data : string) : Prop :=
  writeOutcome writeFileSync outputFilePath data = Returned tt.

(** A flag query without element argument answers from the cached element. *)
Definition flagQueryReadsCache (attribute : attributeName) (this : CacheManagement)
  : Prop :=
  checkAttribute attribute None this
  = match cachedElement this with
    | Some cached => readAttribute cached attribute
    | None => None
    end.

(** * Properties *)

(** ** Flattening *)

Lemma xmlNode_ind (P : xmlNode -> Prop) :
  (forall attrs, P (XmlNode attrs None)) ->
  (forall attrs cs, Forall P cs -> P (XmlNode attrs (Some cs))) ->
  forall n, P n.
Proof.
  intros Hleaf Hinner.
  fix IH 1. intros [attrs [cs|]]; [|apply Hleaf].
  apply Hinner. induction cs as [|c cs IHcs]; constructor; [apply IH | exact IHcs].
Qed.

Lemma foldl_insert_lookup (l : list (string * string)) (acc : UIHierarchy) (key : string) :
  NoDup l.*1 ->
  foldl (fun element kv => <[kv.1 := coerce kv.2]> element) acc l !! key
  = match (list_to_map l : gmap string string) !! key with
    | Some v => Some (coerce v)
    | None => acc !! key
    end.
Proof.
  revert acc. induction l as [|[k v] l IH]; intros acc Hnd.
  - simpl. by rewrite lookup_empty.
  - rewrite fmap_cons in Hnd. apply NoDup_cons in Hnd as [Hk Hnd].
    rewrite list_to_map_cons. cbn [foldl fst snd]. rewrite (IH _ Hnd).
    destruct (decide (k = key)) as [->|Hne].
    + rewrite (not_elem_of_list_to_map_1 _ _ Hk). by rewrite !lookup_insert_eq.
    + rewrite !(lookup_insert_ne _ k key) by done. reflexivity.
Qed.

Lemma buildElement_lookup (attrs : gmap string string) (key : string) :
  buildElement attrs !! key = coerce <$> attrs !! key.
Proof.
  unfold buildElement.
  rewrite foldl_insert_lookup by apply NoDup_fst_map_to_list.
  rewrite list_to_map_to_list, lookup_empty. by destruct (attrs !! key).
Qed.

Lemma buildElement_fmap (attrs : gmap string string) :
  buildElement attrs = coerce <$> attrs.
Proof. apply map_eq; intros key. by rewrite buildElement_lookup, lookup_fmap. Qed.

Lemma foldl_extractNodes (cs : list xmlNode) (elements : list UIHierarchy) :
  Forall (fun c => forall acc, extractNodes c acc = acc ++ extractNodes c []) cs ->
  foldl (fun acc c => extractNodes c acc) elements cs
  = elements ++ flat_map (fun c => extractNodes c []) cs.
Proof.
  intros Hcs. revert elements.
  induction Hcs as [|c cs Hc _ IH]; intros elements; simpl.
  - by rewrite app_nil_r.
  - rewrite IH, Hc. by rewrite <- app_assoc.
Qed.

Lemma extractNodes_app (n : xmlNode) (elements : list UIHierarchy) :
  extractNodes n elements = elements ++ extractNodes n [].
Proof.
  revert elements. induction n as [attrs|attrs cs IH] using xmlNode_ind;
    intros elements; simpl.
  - destruct attrs; [done | by rewrite app_nil_r].
  - rewrite !(foldl_extractNodes cs) by exact IH.
    destruct attrs; simpl; by rewrite ?app_nil_r, <- ?app_assoc.
Qed.

Lemma extractNodes_unfold (n : xmlNode) (elements : list UIHierarchy) :
  extractNodes n elements = elements ++ ownRecord n ++ recordsBelow n.
Proof.
  destruct n as [attrs [cs|]]; unfold ownRecord, recordsBelow; simpl.
  - rewrite foldl_extractNodes
      by (apply Forall_forall; intros c _ acc; apply extractNodes_app).
    destruct attrs; simpl; by rewrite <- ?app_assoc.
  - destruct attrs; simpl; by rewrite ?app_nil_r.
Qed.

Lemma flat_map_segment {A B} (f : A -> list B) (x : A) (l : list A) :
  In x l -> exists before after, flat_map f l = before ++ f x ++ after.
Proof.
  induction l as [|y l IH]; simpl; [done|].
  intros [->|Hin].
  - exists [], (flat_map f l). reflexivity.
  - destruct (IH Hin) as (before & after & ->).
    exists (f y ++ before), after. by rewrite <- app_assoc.
Qed.

Lemma descendant_segment (d n : xmlNode) :
  descendant d n ->
  exists before after, recordsBelow n = before ++ extractNodes d [] ++ after.
Proof.
  induction 1 as [n Hin | n c Hin _ (before & after & IH)].
  - exact (flat_map_segment (fun c => extractNodes c []) d _ Hin).
  - destruct (flat_map_segment (fun c => extractNodes c []) c _ Hin)
      as (b1 & a1 & Heq).
    unfold recordsBelow. rewrite Heq.
    rewrite (extractNodes_unfold c), IH. simpl.
    exists (b1 ++ ownRecord c ++ before), (after ++ a1).
    by rewrite <- !app_assoc.
Qed.

(** C8. Flattening is a pre-order traversal: a node that carries attributes
    appends its record and then the records of its children, in order; a node
    without attributes appends only the records of its children; and the
    records of every descendant form a segment that comes after the node's
    own record. *)
Theorem flattening_is_preorder (n : xmlNode) (elements : list UIHierarchy) :
  (forall a, nodeAttrs n = Some a ->
     extractNodes n elements
     = elements ++ buildElement a :: flat_map (fun c => extractNodes c []) (nodeChildren n))
  /\ (nodeAttrs n = None ->
     extractNodes n elements
     = elements ++ flat_map (fun c => extractNodes c []) (nodeChildren n))
  /\ (forall d, descendant d n ->
     exists before after,
       extractNodes n elements
       = elements ++ ownRecord n ++ before ++ extractNodes d [] ++ after).
Proof.
  rewrite extractNodes_unfold. unfold ownRecord. split; [|split].
  - by intros a ->.
  - by intros ->.
  - intros d Hd. destruct (descendant_segment d n Hd) as (before & after & ->).
    by exists before, after.
Qed.

Lemma flattening_is_preorder_witness :
  exists before after,
    extractNodes sampleRoot []
    = [] ++ ownRecord sampleRoot ++ before ++ extractNodes sampleLeaf [] ++ after.
Proof.
  apply (flattening_is_preorder sampleRoot []).
  apply desc_below with (c := sampleChild); [left; reflexivity|].
  apply desc_child. left; reflexivity.
Defined.

(** ** Matching *)

Lemma isMatchingEntries_spec (entries : list (string * value)) (element : UIHierarchy) :
  isMatchingEntries entries element = true
  <-> forall key v, In (key, v) entries -> element !! key = Some v.
Proof.
  induction entries as [|[k v] entries IH]; simpl.
  - split; [intros _ ? ? [] | done].
  - unfold strictEq. destruct (decide (element !! k = Some v)) as [Heq|Hne].
    + rewrite bool_decide_eq_true_2 by done. simpl. rewrite IH. split.
      * intros H key v' [[= <- <-]|Hin]; [done | by apply H].
      * intros H key v' Hin. apply H. by right.
    + rewrite bool_decide_eq_false_2 by done. simpl. split; [done|].
      intros H. destruct Hne. apply H. by left.
Qed.

Lemma isMatching_spec (conditions element : UIHierarchy) :
  isMatching conditions element = true <-> matchesCondition conditions element.
Proof.
  unfold isMatching, matchesCondition. rewrite isMatchingEntries_spec.
  split; intros H key v Hk; apply H.
  - apply list_elem_of_In. by apply elem_of_map_to_list.
  - apply list_elem_of_In in Hk. by apply elem_of_map_to_list in Hk.
Qed.

Lemma filter_retains {A} (f : A -> bool) (P : A -> Prop) (l : list A) :
  (forall x, f x = true <-> P x) -> retains P l (List.filter f l).
Proof.
  intros Hf. induction l as [|x l IH]; simpl; [constructor|].
  destruct (f x) eqn:Hx.
  - apply retains_keep; [by apply Hf | done].
  - apply retains_drop; [|done]. rewrite <- Hf. congruence.
Qed.

Lemma retains_functional {A} (P : A -> Prop) (l k1 k2 : list A) :
  retains P l k1 -> retains P l k2 -> k1 = k2.
Proof.
  intros H1. revert k2.
  induction H1 as [|x l k1 Hx _ IH|x l k1 Hx _ IH]; intros k2 H2;
    inversion H2; subst; try done; try (f_equal; by apply IH); by apply IH.
Qed.

Lemma retains_In {A} (P : A -> Prop) (l kept : list A) (x : A) :
  retains P l kept -> (In x kept <-> In x l /\ P x).
Proof.
  induction 1 as [|y l kept Hy _ IH|y l kept Hy _ IH]; simpl.
  - tauto.
  - rewrite IH. split; [intros [->|[? ?]]; tauto | tauto].
  - rewrite IH. split; [tauto|]. intros [[->|?] ?]; tauto.
Qed.

Lemma retains_all {A} (P : A -> Prop) (l : list A) :
  (forall x, P x) -> retains P l l.
Proof. intros HP. induction l; constructor; auto. Qed.

(** What the projection keeps for a key: the value of the element, when the
    key is requested and that value is truthy. *)
Lemma applyAttributesFilter_lookup (attrs : list string) (element : UIHierarchy)
  (key : string) :
  applyAttributesFilter (Some attrs) element !! key
  = if decide (key ∈ attrs) then
      if truthy (element !! key) then element !! key else None
    else None.
Proof.
  unfold applyAttributesFilter.
  assert (forall acc : UIHierarchy,
    foldl (fun filteredElement attr =>
             if truthy (element !! attr)
             then from_option (fun v => <[attr := v]> filteredElement)
                              filteredElement (element !! attr)
             else filteredElement) acc attrs !! key
    = if decide (key ∈ attrs) then
        if truthy (element !! key) then element !! key else acc !! key
      else acc !! key) as Hgen.
  { induction attrs as [|a attrs IH]; intros acc; [done|].
    cbn [foldl]. rewrite IH. clear IH.
    destruct (decide (a = key)) as [->|Hne].
    - rewrite (decide_True (P := key ∈ key :: attrs)) by left.
      destruct (truthy (element !! key)) eqn:Ht.
      + destruct (element !! key) as [v|] eqn:Hv; [|done]. simpl.
        rewrite lookup_insert_eq. by destruct (decide (key ∈ attrs)).
      + by destruct (decide (key ∈ attrs)).
    - assert ((if truthy (element !! a)
               then from_option (fun v => <[a := v]> acc) acc (element !! a)
               else acc) !! key = acc !! key) as ->.
      { destruct (truthy (element !! a)); [|done].
        destruct (element !! a); simpl; [by rewrite lookup_insert_ne | done]. }
      destruct (decide (key ∈ attrs)) as [Hin|Hnin].
      + by rewrite decide_True by (by right).
      + rewrite decide_False; [done|]. by intros [?|?]%elem_of_cons. }
  rewrite Hgen, lookup_empty. destruct (decide (key ∈ attrs)); [|done].
  by destruct (truthy (element !! key)).
Qed.

Lemma asMatchResult_cons (e : UIHierarchy) (l : list UIHierarchy) :
  asMatchResult (e :: l) = match l with [] => SingleElement e | _ => ManyElements (e :: l) end.
Proof. by destruct l. Qed.

Section ScreenProperties.

Variable deviceId : string.
Variable parseStringPromise : string -> outcome xmlDocument.
Variable stringify : list UIHierarchy -> string.
Variable writeFileSync : string -> string -> outcome unit.

Local Abbreviation getHierarchy :=
  (getScreenHierarchy deviceId parseStringPromise stringify writeFileSync).
Local Abbreviation obtain := (obtainElements deviceId parseStringPromise stringify writeFileSync).
Local Abbreviation find := (findElement deviceId parseStringPromise stringify writeFileSync).
Local Abbreviation getResolution := (getScreenResolution deviceId).

(** A cache miss of [findElement], step by step. *)
Lemma findElement_miss (this : CacheManagement) (device : Device)
  (conditions : UIHierarchy) (screenHierarchyJSON : option (list UIHierarchy))
  (attributes : option (list string)) (elements : list UIHierarchy) :
  cachedElement this = None ->
  result (obtain device screenHierarchyJSON this) = Returned elements ->
  let fetched := obtain device screenHierarchyJSON this in
  let records :=
    List.map (applyAttributesFilter attributes)
             (List.filter (isMatching conditions) elements) in
  find device conditions screenHierarchyJSON attributes this
  = match records with
    | [only] =>
        Run (set_cachedElementValue (Some only) (final fetched))
            (trace fetched) (Returned (SingleElement only))
    | _ => Run (final fetched) (trace fetched) (Returned (asMatchResult records))
    end.
Proof.
  intros Hmiss Hfetched fetched records.
  unfold findElement, bind, getThis. cbn [result final trace].
  rewrite Hmiss. cbn [app]. rewrite Hfetched. subst fetched records.
  destruct (List.filter (isMatching conditions) elements) as [|e [|e' l]]; simpl;
    by rewrite ?app_nil_r.
Qed.

Lemma getScreenHierarchy_cachedElement (this : CacheManagement) (device : Device)
  (format : outputFormat) (outputFilePath : option string) :
  cachedElement (final (getHierarchy device format outputFilePath this))
  = cachedElement this.
Proof.
  unfold getScreenHierarchy, bind, getThis, execCommand, hierarchyMember,
    writeIfPath, modifyThis, emit, ret, throw.
  cbn [result final trace].
  repeat (case_match; cbn [result final trace]); done.
Qed.

Lemma obtainElements_cachedElement (this : CacheManagement) (device : Device)
  (screenHierarchyJSON : option (list UIHierarchy)) :
  cachedElement (final (obtain device screenHierarchyJSON this))
  = cachedElement this.
Proof.
  unfold obtainElements. destruct screenHierarchyJSON as [h|]; [done|].
  unfold bind.
  pose proof (getScreenHierarchy_cachedElement this device JSON None) as Hc.
  destruct (result (getHierarchy device JSON None this)) as [[l|x]|e];
    cbn [result final trace]; exact Hc.
Qed.

Lemma getScreenHierarchy_hit (this : CacheManagement) (cached : list UIHierarchy)
  (device : Device) (format : outputFormat) (outputFilePath : option string) :
  cachedScreenHierarchy this = Some cached ->
  getHierarchy device format outputFilePath this
  = Run this [] (Returned (Flattened cached)).
Proof.
  intros Hc. unfold getScreenHierarchy, bind, getThis. cbn [result final trace].
  by rewrite Hc.
Qed.

Lemma findElement_hit (this : CacheManagement) (cached : UIHierarchy)
  (device : Device) (conditions : UIHierarchy)
  (screenHierarchyJSON : option (list UIHierarchy))
  (attributes : option (list string)) :
  cachedElement this = Some cached ->
  find device conditions screenHierarchyJSON attributes this
  = Run this [] (Returned (SingleElement cached)).
Proof.
  intros Hc. unfold findElement, bind, getThis. cbn [result final trace].
  by rewrite Hc.
Qed.

Lemma findElement_single (this : CacheManagement) (device : Device)
  (conditions : UIHierarchy) (screenHierarchyJSON : option (list UIHierarchy))
  (attributes : option (list string)) (elements : list UIHierarchy)
  (e : UIHierarchy) :
  cachedElement this = None ->
  result (obtain device screenHierarchyJSON this) = Returned elements ->
  retains (matchesCondition conditions) elements [e] ->
  let r := find device conditions screenHierarchyJSON attributes this in
  result r = Returned (SingleElement (applyAttributesFilter attributes e))
  /\ cachedElement (final r) = Some (applyAttributesFilter attributes e).
Proof.
  intros Hmiss Hfetched Hret r.
  pose proof (filter_retains (isMatching conditions) (matchesCondition conditions)
                elements (isMatching_spec conditions)) as Hfilter.
  pose proof (retains_functional _ _ _ _ Hret Hfilter) as Heq. subst r.
  rewrite (findElement_miss this device conditions screenHierarchyJSON
             attributes elements Hmiss Hfetched).
  cbv zeta. by rewrite <- Heq.
Qed.

(** C1. On an empty Element Cache, whatever hierarchy is used (the one the
    caller supplies, or else the one getScreenHierarchy returns) and whatever
    the condition, findElement answers from exactly the records whose every
    condition key is present with the very same value, kept in order; a
    record that lacks a condition key is not retained, and the empty
    condition retains every record. *)
Theorem findElement_retains_matching (this : CacheManagement) (device : Device)
  (conditions : UIHierarchy) (screenHierarchyJSON : option (list UIHierarchy))
  (attributes : option (list string)) (elements : list UIHierarchy) :
  cachedElement this = None ->
  result (obtain device screenHierarchyJSON this) = Returned elements ->
  (forall supplied, screenHierarchyJSON = Some supplied -> elements = supplied)
  /\ (screenHierarchyJSON = None ->
      result (getHierarchy device JSON None this) = Returned (Flattened elements))
  /\ exists retained,
       retains (matchesCondition conditions) elements retained
       /\ result (find device conditions screenHierarchyJSON attributes this)
          = Returned (asMatchResult (List.map (applyAttributesFilter attributes) retained))
       /\ (forall e key, conditions !! key <> None -> e !! key = None -> ~ In e retained)
       /\ (conditions = ∅ -> retained = elements).
Proof.
  intros Hmiss Hfetched. split; [|split].
  - intros supplied ->. cbn in Hfetched. congruence.
  - intros ->. unfold obtainElements, bind in Hfetched.
    destruct (result (getHierarchy device JSON None this)) as [[l|x]|e];
      cbn in Hfetched; congruence.
  - pose proof (filter_retains (isMatching conditions) (matchesCondition conditions)
                  elements (isMatching_spec conditions)) as Hret.
    exists (List.filter (isMatching conditions) elements).
    split; [exact Hret|split; [|split]].
    + rewrite (findElement_miss this device conditions screenHierarchyJSON
                 attributes elements Hmiss Hfetched).
      cbv zeta.
      destruct (List.map _ _) as [|e [|e' l]]; reflexivity.
    + intros e key Hkey Hnone Hin.
      apply (retains_In _ _ _ e Hret) in Hin as [_ Hm].
      destruct (conditions !! key) as [v|] eqn:Hv; [|done].
      specialize (Hm key v Hv). congruence.
    + intros ->. eapply retains_functional; [exact Hret|].
      apply retains_all. intros e key v. by rewrite lookup_empty.
Qed.

(** C2. With a non-empty Hierarchy Cache, getScreenHierarchy returns the
    cached hierarchy for every output format and path, issues no command,
    writes no file and changes nothing; with a non-empty Element Cache,
    findElement returns the cached element for every condition, hierarchy
    and projection, likewise without any effect. Hence a second call, even
    with other arguments and against a changed device, returns the same
    value as the first. *)
Theorem cache_hit_returns_cached (this : CacheManagement) :
  (forall cached, cachedScreenHierarchy this = Some cached ->
     forall device format outputFilePath,
       getHierarchy device format outputFilePath this
       = Run this [] (Returned (Flattened cached)))
  /\ (forall cached, cachedElement this = Some cached ->
     forall device conditions screenHierarchyJSON attributes,
       find device conditions screenHierarchyJSON attributes this
       = Run this [] (Returned (SingleElement cached)))
  /\ (forall cached, cachedScreenHierarchy this = Some cached ->
     forall device format outputFilePath device' format' outputFilePath',
       let first := getHierarchy device format outputFilePath this in
       let second := getHierarchy device' format' outputFilePath' (final first) in
       result second = result first /\ trace second = [])
  /\ (forall cached, cachedElement this = Some cached ->
     forall device conditions screenHierarchyJSON attributes
            device' conditions' screenHierarchyJSON' attributes',
       let first := find device conditions screenHierarchyJSON attributes this in
       let second :=
         find device' conditions' screenHierarchyJSON' attributes' (final first) in
       result second = result first /\ trace second = []).
Proof.
  pose proof (getScreenHierarchy_hit this) as Hh.
  pose proof (findElement_hit this) as He.
  split; [intros; by apply Hh|]. split; [intros; by apply He|]. split.
  - intros cached Hc device format path device' format' path' first second.
    subst first second. rewrite (Hh cached device format path Hc).
    cbn [final]. by rewrite (Hh cached device' format' path' Hc).
  - intros cached Hc device c h a device' c' h' a' first second.
    subst first second. rewrite (He cached device c h a Hc).
    cbn [final]. by rewrite (He cached device' c' h' a' Hc).
Qed.

(** C3. On an empty Element Cache: with no matching record findElement
    returns null and the Element Cache stays empty; with exactly one it
    stores the record (projected when a projection is asked for, the record
    itself otherwise) in the Element Cache and returns it alone; with more
    than one it returns them all, in filter order, and the Element Cache
    stays empty. *)
Theorem findElement_none_one_many (this : CacheManagement) (device : Device)
  (conditions : UIHierarchy) (screenHierarchyJSON : option (list UIHierarchy))
  (attributes : option (list string)) (elements retained : list UIHierarchy) :
  cachedElement this = None ->
  result (obtain device screenHierarchyJSON this) = Returned elements ->
  retains (matchesCondition conditions) elements retained ->
  let r := find device conditions screenHierarchyJSON attributes this in
  match retained with
  | [] => result r = Returned NoMatch /\ cachedElement (final r) = None
  | [e] =>
      result r = Returned (SingleElement (applyAttributesFilter attributes e))
      /\ cachedElement (final r) = Some (applyAttributesFilter attributes e)
      /\ (attributes = None ->
          result r = Returned (SingleElement e) /\ cachedElement (final r) = Some e)
  | _ :: _ :: _ =>
      result r
      = Returned (ManyElements (List.map (applyAttributesFilter attributes) retained))
      /\ cachedElement (final r) = None
  end.
Proof.
  intros Hmiss Hfetched Hret r.
  pose proof (filter_retains (isMatching conditions) (matchesCondition conditions)
                elements (isMatching_spec conditions)) as Hfilter.
  rewrite (retains_functional _ _ _ _ Hret Hfilter). subst r.
  rewrite (findElement_miss this device conditions screenHierarchyJSON
             attributes elements Hmiss Hfetched).
  cbv zeta.
  pose proof (obtainElements_cachedElement this device screenHierarchyJSON) as Hc.
  rewrite Hmiss in Hc.
  destruct (List.filter (isMatching conditions) elements) as [|e [|e' l]];
    cbn [List.map result final asMatchResult].
  - done.
  - split; [done|]. split; [done|]. by intros ->.
  - done.
Qed.

(** C10, as the code has it. When a projection is asked for (of attributes
    that are no member names of Object.prototype) and exactly one record
    matches, the Element Cache receives the projected record, not the full
    one: it has no key outside the requested ones, it agrees with the matching
    record on the keys it has, and it has every requested key whose value on
    the record is truthy. Every later findElement returns that projected
    record. *)
Theorem cache_holds_projected_record (this : CacheManagement) (device : Device)
  (conditions : UIHierarchy) (screenHierarchyJSON : option (list UIHierarchy))
  (attrs : list string) (elements : list UIHierarchy) (e : UIHierarchy) :
  cachedElement this = None ->
  result (obtain device screenHierarchyJSON this) = Returned elements ->
  retains (matchesCondition conditions) elements [e] ->
  ownNames attrs ->
  let r := find device conditions screenHierarchyJSON (Some attrs) this in
  let projected := applyAttributesFilter (Some attrs) e in
  cachedElement (final r) = Some projected
  /\ result r = Returned (SingleElement projected)
  /\ (forall key v, projected !! key = Some v -> key ∈ attrs /\ e !! key = Some v)
  /\ (forall key v,
        key ∈ attrs -> e !! key = Some v -> truthy (Some v) = true ->
        projected !! key = Some v)
  /\ (forall key, key ∉ attrs -> is_Some (e !! key) -> projected <> e)
  /\ (forall device' conditions' screenHierarchyJSON' attributes',
        find device' conditions' screenHierarchyJSON' attributes' (final r)
        = Run (final r) [] (Returned (SingleElement projected))).
Proof.
  intros Hmiss Hfetched Hret _ r projected.
  pose proof (findElement_single this device conditions screenHierarchyJSON
                (Some attrs) elements e Hmiss Hfetched Hret) as (Hres & Hcache).
  fold r projected in Hres, Hcache.
  assert (forall key, key ∉ attrs -> projected !! key = None) as Hout.
  { intros key Hkey. subst projected. rewrite applyAttributesFilter_lookup.
    by rewrite decide_False. }
  split; [exact Hcache|]. split; [exact Hres|]. split; [|split; [|split]].
  - intros key v. subst projected. rewrite applyAttributesFilter_lookup.
    destruct (decide (key ∈ attrs)); [|done].
    by destruct (truthy (e !! key)).
  - intros key v Hin Hv Ht. subst projected. rewrite applyAttributesFilter_lookup.
    rewrite decide_True by done. by rewrite Hv, Ht.
  - intros key Hkey [v Hv] Heq. specialize (Hout key Hkey).
    rewrite Heq in Hout. rewrite Hv in Hout. done.
  - intros device' conditions' h' attributes'.
    apply findElement_hit. exact Hcache.
Qed.

(** A cache miss of [getScreenHierarchy], branch by branch. *)
Lemma getScreenHierarchy_miss (this : CacheManagement) (device : Device)
  (format : outputFormat) (outputFilePath : option string) :
  cachedScreenHierarchy this = None ->
  getHierarchy device format outputFilePath this
  = match device (dumpCommand deviceId) with
    | Thrown e => Run this [ExecCommand (dumpCommand deviceId)] (Thrown e)
    | Returned hierarchyXML =>
        match format with
        | XML =>
            Run this
                (ExecCommand (dumpCommand deviceId)
                 :: fileWrites outputFilePath hierarchyXML)
                match writeOutcome writeFileSync outputFilePath hierarchyXML with
                | Returned _ => Returned (RawMarkup hierarchyXML)
                | Thrown e => Thrown e
                end
        | JSON =>
            match parseStringPromise hierarchyXML with
            | Thrown e => Run this [ExecCommand (dumpCommand deviceId)] (Thrown e)
            | Returned doc =>
                if String.eqb (rootName doc) "hierarchy" then
                  let elements := extractNodes (rootNode doc) [] in
                  match writeOutcome writeFileSync outputFilePath (stringify elements) with
                  | Returned _ =>
                      Run (set_cachedScreenHierarchyValue (Some elements) this)
                          (ExecCommand (dumpCommand deviceId)
                           :: fileWrites outputFilePath (stringify elements))
                          (Returned (Flattened elements))
                  | Thrown e =>
                      Run this
                          (ExecCommand (dumpCommand deviceId)
                           :: fileWrites outputFilePath (stringify elements))
                          (Thrown e)
                  end
                else Run this [ExecCommand (dumpCommand deviceId)] (Thrown "TypeError")
            end
        end
    end.
Proof.
  intros Hmiss.
  unfold getScreenHierarchy, bind, getThis, execCommand, hierarchyMember.
  cbn [result final trace]. rewrite Hmiss. cbn [result final trace].
  destruct (device (dumpCommand deviceId)) as [hierarchyXML|e];
    cbn [result final trace]; [|done].
  destruct format.
  - destruct (parseStringPromise hierarchyXML) as [doc|e];
      cbn [result final trace]; [|done].
    destruct (String.eqb (rootName doc) "hierarchy");
      cbn [ret throw result final trace]; [|done].
    unfold writeIfPath, writeOutcome, fileWrites, ret, modifyThis.
    destruct outputFilePath as [path|];
      [destruct (String.eqb path "");
       [|destruct (writeFileSync path _); cbn [result final trace]]|];
      reflexivity.
  - unfold writeIfPath, writeOutcome, fileWrites, ret.
    destruct outputFilePath as [path|];
      [destruct (String.eqb path "");
       [|destruct (writeFileSync path _); cbn [result final trace]]|];
      reflexivity.
Qed.

(** C4, as the code has it. The root node is flattened like every other
    node: on a cache miss, when the dump, the parse and the optional file
    write succeed, the hierarchy returned and cached for a document starts
    with the root's own record exactly when the root carries attributes,
    holds no record for a root without attributes, and in both cases goes on
    with the records of the root's descendants. *)
Theorem root_flattened_like_any_node (this : CacheManagement) (device : Device)
  (outputFilePath : option string) (hierarchyXML : string) (doc : xmlDocument) :
  cachedScreenHierarchy this = None ->
  device (dumpCommand deviceId) = Returned hierarchyXML ->
  parseStringPromise hierarchyXML = Returned doc ->
  rootName doc = "hierarchy" ->
  writeSucceeds writeFileSync outputFilePath
    (stringify (ownRecord (rootNode doc) ++ recordsBelow (rootNode doc))) ->
  let r := getHierarchy device JSON outputFilePath this in
  result r
  = Returned (Flattened (ownRecord (rootNode doc) ++ recordsBelow (rootNode doc)))
  /\ cachedScreenHierarchy (final r)
     = Some (ownRecord (rootNode doc) ++ recordsBelow (rootNode doc))
  /\ (forall a, nodeAttrs (rootNode doc) = Some a ->
        ownRecord (rootNode doc) = [buildElement a]
        /\ head (ownRecord (rootNode doc) ++ recordsBelow (rootNode doc))
           = Some (buildElement a))
  /\ (nodeAttrs (rootNode doc) = None ->
      ownRecord (rootNode doc) ++ recordsBelow (rootNode doc)
      = recordsBelow (rootNode doc)).
Proof.
  intros Hmiss Hdev Hparse Hroot Hwrite r. subst r.
  rewrite (getScreenHierarchy_miss _ _ _ _ Hmiss), Hdev, Hparse, Hroot.
  cbn [String.eqb Ascii.eqb Bool.eqb]. cbv zeta.
  rewrite (extractNodes_unfold (rootNode doc) []), app_nil_l.
  unfold writeSucceeds in Hwrite. rewrite Hwrite. cbn [result final].
  split; [done|]. split; [done|]. unfold ownRecord. split.
  - by intros a ->.
  - by intros ->.
Qed.

End ScreenProperties.

(** ** The resolution pattern *)

Lemma isDigit_x : isDigit "x" = false.
Proof. reflexivity. Qed.

Lemma spanDigits_app (ds rest : list ascii) :
  allDigits ds -> noDigitAhead rest -> spanDigits (ds ++ rest) = (ds, rest).
Proof.
  intros Hds Hrest. induction Hds as [|c ds Hc _ IH]; simpl.
  - destruct rest as [|c rest]; [done|]. simpl in *. by rewrite Hrest.
  - by rewrite Hc, IH.
Qed.

Lemma spanDigits_inv (s ds rest : list ascii) :
  spanDigits s = (ds, rest) -> s = ds ++ rest /\ allDigits ds /\ noDigitAhead rest.
Proof.
  revert ds rest. induction s as [|c s IH]; intros ds rest; simpl.
  - intros [= <- <-]. split; [done|]. split; [constructor | done].
  - destruct (isDigit c) eqn:Hc.
    + destruct (spanDigits s) as [ds' rest'] eqn:Hs. intros [= <- <-].
      destruct (IH _ _ eq_refl) as (-> & Hds & Hrest).
      split; [done|]. split; [by constructor | done].
    + intros [= <- <-]. split; [done|]. split; [constructor | done].
Qed.

Lemma spanDigits_nonempty (b r : list ascii) :
  b <> [] -> allDigits b -> (spanDigits (b ++ r)).1 <> [].
Proof.
  intros Hb Hds. destruct Hds as [|c b Hc _]; [done|]. simpl. rewrite Hc.
  by destruct (spanDigits (b ++ r)).
Qed.

Lemma matchHere_Some (s g1 g2 : list ascii) :
  matchHere s = Some (g1, g2) ->
  exists rest,
    s = g1 ++ "x"%char :: g2 ++ rest
    /\ g1 <> [] /\ g2 <> [] /\ allDigits g1 /\ allDigits g2 /\ noDigitAhead rest.
Proof.
  unfold matchHere. destruct (spanDigits s) as [d1 r1] eqn:H1.
  destruct d1 as [|c1 d1]; [done|]. destruct r1 as [|c r2]; [done|].
  destruct (Ascii.eqb_spec c "x") as [->|]; [|done].
  destruct (spanDigits r2) as [d2 rest] eqn:H2.
  destruct d2 as [|c2 d2]; [done|]. intros [= <- <-].
  apply spanDigits_inv in H1 as (-> & Hd1 & _).
  apply spanDigits_inv in H2 as (-> & Hd2 & Hrest).
  by exists rest.
Qed.

Lemma matchHere_complete (g1 g2 rest : list ascii) :
  g1 <> [] -> g2 <> [] -> allDigits g1 -> allDigits g2 -> noDigitAhead rest ->
  matchHere (g1 ++ "x"%char :: g2 ++ rest) = Some (g1, g2).
Proof.
  intros Hn1 Hn2 Hd1 Hd2 Hrest. unfold matchHere.
  rewrite (spanDigits_app g1) by done.
  destruct g1 as [|c1 g1]; [done|]. cbn [Ascii.eqb Bool.eqb andb].
  rewrite (spanDigits_app g2) by done.
  by destruct g2.
Qed.

Lemma matchHere_None (s : list ascii) : matchHere s = None -> ~ patternAtHead s.
Proof.
  intros Hnone (a & b & r & -> & Ha & Hb & Hda & Hdb).
  unfold matchHere in Hnone. rewrite (spanDigits_app a) in Hnone by done.
  destruct a as [|ca a]; [done|]. cbn [Ascii.eqb Bool.eqb andb] in Hnone.
  pose proof (spanDigits_nonempty b r Hb Hdb) as Hne.
  destruct (spanDigits (b ++ r)) as [d2 r2]. by destruct d2.
Qed.

Lemma regexMatch_Some (s g1 g2 : list ascii) :
  regexMatch s = Some (g1, g2) -> firstPattern s g1 g2.
Proof.
  induction s as [|c s IH]; [done|].
  cbn [regexMatch]. destruct (matchHere (c :: s)) as [[h1 h2]|] eqn:Hhere.
  - intros [= -> ->]. apply matchHere_Some in Hhere as (rest & Hs & ? & ? & ? & ? & ?).
    exists [], rest. repeat split; try done.
    intros [|? ?] ? ? ?; done.
  - intros Hs. destruct (IH Hs) as (before & rest & -> & ? & ? & ? & ? & ? & Hmin).
    exists (c :: before), rest. repeat split; try done.
    intros [|c' skipped] c0 tail Heq.
    + injection Heq as <- <-. by apply matchHere_None.
    + injection Heq as <- ->. by apply (Hmin skipped).
Qed.

Lemma regexMatch_None (s : list ascii) : regexMatch s = None -> ~ containsPattern s.
Proof.
  induction s as [|c s IH]; cbn [regexMatch].
  - intros _ ([|? ?] & after & Heq & Hpat); [|done].
    simpl in Heq. subst after. by apply (matchHere_None []).
  - destruct (matchHere (c :: s)) eqn:Hhere; [done|].
    intros Hs ([|c' before] & after & Heq & Hpat).
    + simpl in Heq. subst after. by apply (matchHere_None (c :: s)).
    + injection Heq as <- ->. apply (IH Hs). by exists before, after.
Qed.

Lemma firstPattern_contains (s g1 g2 : list ascii) :
  firstPattern s g1 g2 -> containsPattern s.
Proof.
  intros (before & rest & -> & ? & ? & ? & ? & _).
  exists before, (g1 ++ "x"%char :: g2 ++ rest). split; [done|].
  by exists g1, g2, rest.
Qed.

Lemma regexMatch_complete (s g1 g2 : list ascii) :
  firstPattern s g1 g2 -> regexMatch s = Some (g1, g2).
Proof.
  intros (before & rest & -> & Hn1 & Hn2 & Hd1 & Hd2 & Hrest & Hmin).
  induction before as [|c before IH].
  - simpl. destruct g1 as [|c1 g1]; [done|].
    change ((c1 :: g1) ++ "x"%char :: g2 ++ rest) with (c1 :: (g1 ++ "x"%char :: g2 ++ rest)).
    cbn [regexMatch].
    change (c1 :: (g1 ++ "x"%char :: g2 ++ rest)) with ((c1 :: g1) ++ "x"%char :: g2 ++ rest).
    by rewrite matchHere_complete.
  - change ((c :: before) ++ g1 ++ "x"%char :: g2 ++ rest)
      with (c :: (before ++ g1 ++ "x"%char :: g2 ++ rest)).
    cbn [regexMatch].
    destruct (matchHere (c :: before ++ g1 ++ "x"%char :: g2 ++ rest)) as [[h1 h2]|] eqn:Hhere.
    + apply matchHere_Some in Hhere as (rest' & Heq & ? & ? & ? & ? & _).
      destruct (Hmin [] c before eq_refl). rewrite Heq. by exists h1, h2, rest'.
    + apply IH. intros skipped c0 tail ->. by apply (Hmin (c :: skipped)).
Qed.

Lemma containsPattern_first (s : list ascii) :
  containsPattern s -> exists g1 g2, firstPattern s g1 g2.
Proof.
  intros Hc. destruct (regexMatch s) as [[g1 g2]|] eqn:Hm.
  - exists g1, g2. by apply regexMatch_Some.
  - by apply regexMatch_None in Hm.
Qed.

(** ** Screen resolution *)

Lemma getScreenResolution_miss (deviceId : string) (this : CacheManagement)
  (device : Device) :
  cachedScreenResolution this = None ->
  getScreenResolution deviceId device this
  = match device (sizeCommand deviceId) with
    | Returned resolutionString =>
        match regexMatch (list_ascii_of_string resolutionString) with
        | Some (g1, g2) =>
            let resolution := mkResolution (parseInt g1) (parseInt g2) in
            Run (set_cachedScreenResolution (Some resolution) this)
                [ExecCommand (sizeCommand deviceId)] (Returned (Some resolution))
        | None => Run this [ExecCommand (sizeCommand deviceId)] (Returned None)
        end
    | Thrown _ => Run this [ExecCommand (sizeCommand deviceId)] (Returned None)
    end.
Proof.
  intros Hmiss.
  unfold getScreenResolution, bind, getThis, tryCatch, execCommand.
  cbn [result final trace]. rewrite Hmiss. cbn [result final trace].
  destruct (device (sizeCommand deviceId)) as [resolutionString|e];
    cbn [result final trace]; [|reflexivity].
  destruct (regexMatch (list_ascii_of_string resolutionString)) as [[g1 g2]|];
    reflexivity.
Qed.

(** C9. On an empty Resolution Cache, getScreenResolution asks the device for
    its size once. When the answer contains an <integer>x<integer> substring,
    a resolution is returned and the Resolution Cache holds it afterwards; it
    is the width and height of the first such substring, for integers up to
    2^53 ("Physical size: 1080x2400" gives 1080 and 2400). When the answer
    contains none, or the command fails, the result is null and the cache
    stays empty, so the next call asks the device again. *)
Theorem resolution_parsed_or_null (deviceId : string) (this : CacheManagement)
  (device : Device) :
  cachedScreenResolution this = None ->
  let r := getScreenResolution deviceId device this in
  trace r = [ExecCommand (sizeCommand deviceId)]
  /\ match device (sizeCommand deviceId) with
     | Returned resolutionString =>
         let text := list_ascii_of_string resolutionString in
         (forall g1 g2, firstPattern text g1 g2 ->
            exactNumber (parseInt g1) -> exactNumber (parseInt g2) ->
            let resolution := mkResolution (parseInt g1) (parseInt g2) in
            result r = Returned (Some resolution)
            /\ cachedScreenResolution (final r) = Some resolution)
         /\ (containsPattern text ->
             (exists g1 g2, firstPattern text g1 g2)
             /\ exists resolution,
                  result r = Returned (Some resolution)
                  /\ cachedScreenResolution (final r) = Some resolution)
         /\ (~ containsPattern text ->
             result r = Returned None /\ final r = this
             /\ cachedScreenResolution (final r) = None)
     | Thrown _ =>
         result r = Returned None /\ final r = this
         /\ cachedScreenResolution (final r) = None
     end
  /\ (device (sizeCommand deviceId) = Returned "Physical size: 1080x2400" ->
      result r = Returned (Some (mkResolution 1080 2400))
      /\ cachedScreenResolution (final r) = Some (mkResolution 1080 2400))
  /\ (result r = Returned None ->
      cachedScreenResolution (final r) = None
      /\ forall device',
           trace (getScreenResolution deviceId device' (final r))
           = [ExecCommand (sizeCommand deviceId)]).
Proof.
  intros Hmiss r. subst r. rewrite (getScreenResolution_miss _ _ _ Hmiss).
  assert (forall this' device', cachedScreenResolution this' = None ->
            trace (getScreenResolution deviceId device' this')
            = [ExecCommand (sizeCommand deviceId)]) as Htrace.
  { intros this' device' Hmiss'. rewrite (getScreenResolution_miss _ _ _ Hmiss').
    destruct (device' (sizeCommand deviceId)) as [s|e]; [|done].
    by destruct (regexMatch (list_ascii_of_string s)) as [[g1 g2]|]. }
  destruct (device (sizeCommand deviceId)) as [resolutionString|e] eqn:Hdev.
  - destruct (regexMatch (list_ascii_of_string resolutionString)) as [[h1 h2]|] eqn:Hm;
      cbn [result final trace cachedScreenResolution set_cachedScreenResolution].
    + split; [done|]. split; [|split].
      * split; [|split].
        -- intros g1 g2 Hfirst _ _. apply regexMatch_complete in Hfirst.
           rewrite Hfirst in Hm. by injection Hm as <- <-.
        -- intros Hc. split; [by apply containsPattern_first|]. eauto.
        -- intros Hno. destruct Hno. eapply firstPattern_contains.
           by apply regexMatch_Some.
      * intros [= ->]. vm_compute in Hm. by injection Hm as <- <-.
      * done.
    + split; [done|]. split; [|split].
      * split; [|split].
        -- intros g1 g2 Hfirst. apply regexMatch_complete in Hfirst. congruence.
        -- intros Hc. by apply regexMatch_None in Hm.
        -- done.
      * intros [= ->]. by vm_compute in Hm.
      * intros _. split; [done|]. intros device'. by apply Htrace.
  - cbn [result final trace]. split; [done|]. split; [done|]. split; [done|].
    intros _. split; [done|]. intros device'. by apply Htrace.
Qed.

Lemma resolution_parsed_or_null_witness :
  result (getScreenResolution "emulator-5554" sampleDevice newCache)
  = Returned (Some (mkResolution 1080 2400))
  /\ cachedScreenResolution
       (final (getScreenResolution "emulator-5554" sampleDevice newCache))
     = Some (mkResolution 1080 2400).
Proof.
  apply (resolution_parsed_or_null "emulator-5554" newCache sampleDevice);
    reflexivity.
Defined.

(** ** Attribute flags *)

(** What the guard of [checkAttribute] lets through: a query is answered only
    when an element is given and the Element Cache is non-empty as well, and
    then from the given element. *)
Lemma checkAttribute_cases (attribute : attributeName) (element : option UIHierarchy)
  (this : CacheManagement) :
  checkAttribute attribute element this
  = match element, cachedElement this with
    | Some e, Some _ => readAttribute e attribute
    | _, _ => None
    end.
Proof.
  unfold checkAttribute. by destruct element, (cachedElement this).
Qed.

Lemma readAttribute_cases (e : UIHierarchy) (attribute : attributeName) :
  readAttribute e attribute
  = match e !! attributeKey attribute with
    | Some v => Some (bool_decide (v = VBool true))
    | None => None
    end.
Proof.
  unfold readAttribute, strictEq.
  destruct (e !! attributeKey attribute) as [v|]; [|done].
  rewrite bool_decide_eq_false_2 by done. simpl. f_equal.
  apply bool_decide_ext. split; congruence.
Qed.

(** C6, evaluated. With the element found by the scenario of the
    specification in the Element Cache and no element argument, the record
    the documentation resolves to is the cached one, on which clickable is
    true, yet the query answers null; and with an element argument but an
    empty Element Cache it answers null as well. *)
Theorem checkAttribute_never_falls_back :
  resolvedElement None (set_cachedElementValue (Some btn1) newCache) = Some btn1
  /\ readAttribute btn1 clickable = Some true
  /\ isClickable None (set_cachedElementValue (Some btn1) newCache) = None
  /\ resolvedElement (Some btn1) newCache = Some btn1
  /\ isClickable (Some btn1) newCache = None.
Proof. repeat split. Qed.

(** ** Evaluations on the scenario of the specification *)

(** C5, evaluated. Asking for resourceId and clickable on the record of
    btn2, which has both keys, gives a projection without clickable: the
    value false is dropped although the key is present. *)
Theorem projection_drops_false_attribute :
  btn2 !! "clickable" = Some (VBool false)
  /\ applyAttributesFilter (Some ["resourceId"; "clickable"]) btn2
     = {[ "resourceId" := VStr "btn2" ]}
  /\ result (findElement "emulator-5554" sampleParser sampleStringify sampleWrite silentDevice
               {[ "resourceId" := VStr "btn2" ]} (Some [btn1; btn2])
               (Some ["resourceId"; "clickable"]) newCache)
     = Returned (SingleElement {[ "resourceId" := VStr "btn2" ]}).
Proof. repeat split; vm_compute; reflexivity. Qed.

(** C4 fails: the root of [sampleMarkup] carries the attribute rotation, and
    its record opens the flattened hierarchy that getScreenHierarchy returns
    for that dump. *)
Lemma root_record_is_emitted :
  result (getScreenHierarchy "emulator-5554" sampleParser sampleStringify sampleWrite
            sampleDevice JSON None newCache)
  = Returned (Flattened ({[ "rotation" := VStr "0" ]} :: recordsBelow sampleRoot))
  /\ ~ rootSkipped sampleRoot.
Proof.
  split; [vm_compute; reflexivity|].
  unfold rootSkipped. intros Heq. apply (f_equal (@List.length UIHierarchy)) in Heq.
  vm_compute in Heq. discriminate.
Qed.

Lemma root_flattened_like_any_node_witness :
  result (getScreenHierarchy "emulator-5554" sampleParser sampleStringify sampleWrite
            sampleDevice JSON (Some "dump.json") newCache)
  = Returned (Flattened (ownRecord sampleRoot ++ recordsBelow sampleRoot)).
Proof.
  apply (root_flattened_like_any_node "emulator-5554" sampleParser sampleStringify
           sampleWrite newCache sampleDevice (Some "dump.json") sampleMarkup
           (XmlDocument "hierarchy" sampleRoot));
    reflexivity.
Defined.

Lemma retains_btn1 :
  retains (matchesCondition {[ "clickable" := VBool true ]}) [btn1; btn2] [btn1].
Proof.
  apply retains_keep.
  - intros key expected [<- <-]%lookup_singleton_Some. reflexivity.
  - apply retains_drop; [|constructor].
    intros Hm. specialize (Hm "clickable" (VBool true) eq_refl). discriminate.
Qed.

Lemma findElement_retains_matching_witness :
  exists retained,
    retains (matchesCondition {[ "clickable" := VBool true ]}) [btn1; btn2] retained
    /\ result (findElement "emulator-5554" sampleParser sampleStringify sampleWrite silentDevice
                 {[ "clickable" := VBool true ]} (Some [btn1; btn2]) None newCache)
       = Returned (asMatchResult (List.map (applyAttributesFilter None) retained))
    /\ (forall e key,
          ({[ "clickable" := VBool true ]} : UIHierarchy) !! key <> None ->
          e !! key = None -> ~ In e retained)
    /\ (({[ "clickable" := VBool true ]} : UIHierarchy) = ∅ -> retained = [btn1; btn2]).
Proof.
  apply (findElement_retains_matching "emulator-5554" sampleParser sampleStringify sampleWrite
           newCache silentDevice {[ "clickable" := VBool true ]}
           (Some [btn1; btn2]) None [btn1; btn2]);
    reflexivity.
Defined.

Lemma cache_hit_returns_cached_witness :
  findElement "emulator-5554" sampleParser sampleStringify sampleWrite brokenDevice
    {[ "resourceId" := VStr "btn2" ]} (Some [btn2]) None
    (set_cachedElementValue (Some btn1) newCache)
  = Run (set_cachedElementValue (Some btn1) newCache) [] (Returned (SingleElement btn1)).
Proof.
  apply (cache_hit_returns_cached "emulator-5554" sampleParser sampleStringify sampleWrite
           (set_cachedElementValue (Some btn1) newCache)).
  reflexivity.
Defined.

Lemma findElement_none_one_many_witness :
  result (findElement "emulator-5554" sampleParser sampleStringify sampleWrite silentDevice
            {[ "clickable" := VBool true ]} (Some [btn1; btn2]) None newCache)
  = Returned (SingleElement btn1)
  /\ cachedElement (final (findElement "emulator-5554" sampleParser sampleStringify sampleWrite
                             silentDevice {[ "clickable" := VBool true ]}
                             (Some [btn1; btn2]) None newCache))
     = Some btn1.
Proof.
  pose proof (findElement_none_one_many "emulator-5554" sampleParser sampleStringify sampleWrite
                newCache silentDevice {[ "clickable" := VBool true ]}
                (Some [btn1; btn2]) None [btn1; btn2] [btn1]
                eq_refl eq_refl retains_btn1) as (Hresult & Hcache & _).
  split; [exact Hresult | exact Hcache].
Defined.

Lemma cache_holds_projected_record_witness :
  cachedElement (final (findElement "emulator-5554" sampleParser sampleStringify
                          sampleWrite silentDevice {[ "clickable" := VBool true ]}
                          (Some [btn1; btn2]) (Some ["resourceId"]) newCache))
  = Some (applyAttributesFilter (Some ["resourceId"]) btn1).
Proof.
  apply (cache_holds_projected_record "emulator-5554" sampleParser sampleStringify
           sampleWrite newCache silentDevice {[ "clickable" := VBool true ]}
           (Some [btn1; btn2]) ["resourceId"] [btn1; btn2] btn1 eq_refl eq_refl
           retains_btn1).
  repeat constructor. intros Hin. vm_compute in Hin.
  repeat (apply elem_of_cons in Hin as [Hin|Hin]; [discriminate|]).
  by apply elem_of_nil in Hin.
Defined.

(** C10 fails on flag queries. findElement finds btn1 and caches its
    projection on clickable, on which clickable is true; a flag query without
    element argument on that state does not answer from the cached
    projection but with null, and so it does on the state of a UIAttributes
    object, whose Element Cache nothing fills. *)
Lemma flag_query_ignores_cached_projection :
  cachedElement
    (final (findElement "emulator-5554" sampleParser sampleStringify sampleWrite
              silentDevice {[ "resourceId" := VStr "btn1" ]} (Some [btn1; btn2])
              (Some ["clickable"]) newCache))
  = Some {[ "clickable" := VBool true ]}
  /\ readAttribute {[ "clickable" := VBool true ]} clickable = Some true
  /\ ~ flagQueryReadsCache clickable
         (final (findElement "emulator-5554" sampleParser sampleStringify sampleWrite
                   silentDevice {[ "resourceId" := VStr "btn1" ]} (Some [btn1; btn2])
                   (Some ["clickable"]) newCache))
  /\ isClickable None newCache = None.
Proof.
  split; [vm_compute; reflexivity|]. split; [reflexivity|]. split; [|reflexivity].
  unfold flagQueryReadsCache. intros Heq. vm_compute in Heq. discriminate.
Qed.

(** * Further properties of the code *)

(** ** Decimal texts *)

Lemma list_ascii_of_string_app (a b : string) :
  list_ascii_of_string (a ++ b) = list_ascii_of_string a ++ list_ascii_of_string b.
Proof. induction a as [|c a IH]; simpl; [done | by rewrite IH]. Qed.

Lemma uint_chars_allDigits (d : Decimal.uint) :
  allDigits (list_ascii_of_string (NilEmpty.string_of_uint d)).
Proof. induction d; simpl; constructor; done. Qed.

Lemma uint_chars_value (d : Decimal.uint) (acc : N) :
  foldl (fun acc c => (10 * acc + digitValue c)%N) acc
        (list_ascii_of_string (NilEmpty.string_of_uint d))
  = (acc * 10 ^ Unsigned.usize d + Unsigned.of_lu (Decimal.rev d))%N.
Proof.
  revert acc.
  induction d as [|d IH|d IH|d IH|d IH|d IH|d IH|d IH|d IH|d IH|d IH]; intros acc;
    [simpl; lia|..];
    cbn [NilEmpty.string_of_uint list_ascii_of_string foldl Unsigned.usize];
    rewrite IH; unfold Decimal.rev at 2; cbn [Decimal.revapp];
    match goal with
    | |- context [Unsigned.of_lu (Decimal.revapp d ?t)] =>
        rewrite (Unsigned.of_lu_revapp d t)
    end;
    rewrite N.pow_succ_r'; cbn [Unsigned.of_lu];
    unfold digitValue; cbn [nat_of_ascii N_of_ascii N_of_digits N.to_nat];
    simpl N.of_nat; lia.
Qed.

Lemma numberToString_digits (n : N) :
  allDigits (list_ascii_of_string (numberToString n)).
Proof. apply uint_chars_allDigits. Qed.

Lemma numberToString_nonempty (n : N) :
  list_ascii_of_string (numberToString n) <> [].
Proof.
  unfold numberToString. destruct n as [|p]; [done|]. simpl.
  pose proof (Unsigned.to_uint_nonnil p) as Hp.
  by destruct (Pos.to_uint p).
Qed.

Lemma parseInt_numberToString (n : N) :
  parseInt (list_ascii_of_string (numberToString n)) = n.
Proof.
  unfold parseInt, numberToString. rewrite uint_chars_value.
  rewrite <- Unsigned.of_uint_alt. simpl.
  change (Pos.of_uint (N.to_uint n)) with (N.of_uint (N.to_uint n)).
  apply DecimalN.Unsigned.of_to.
Qed.

(** ** The resolution pattern, continued *)

Lemma regexMatch_skip (c : ascii) (s : list ascii) :
  isDigit c = false -> regexMatch (c :: s) = regexMatch s.
Proof.
  intros Hc. cbn [regexMatch]. unfold matchHere at 1. cbn [spanDigits].
  by rewrite Hc.
Qed.

Lemma regexMatch_after_prefix (p s : list ascii) :
  noDigits p -> regexMatch (p ++ s) = regexMatch s.
Proof.
  induction 1 as [|c p Hc _ IH]; [done|].
  rewrite <- app_comm_cons. by rewrite regexMatch_skip.
Qed.

Lemma regexMatch_at_head (g1 g2 rest : list ascii) :
  g1 <> [] -> g2 <> [] -> allDigits g1 -> allDigits g2 -> noDigitAhead rest ->
  regexMatch (g1 ++ "x"%char :: g2 ++ rest) = Some (g1, g2).
Proof.
  intros Hn1 Hn2 Hd1 Hd2 Hrest.
  pose proof (matchHere_complete g1 g2 rest Hn1 Hn2 Hd1 Hd2 Hrest) as Hm.
  destruct g1 as [|c1 g1]; [done|].
  rewrite <- app_comm_cons in *. cbn [regexMatch]. by rewrite Hm.
Qed.

Lemma getScreenResolution_hit (deviceId : string) (this : CacheManagement)
  (device : Device) (cached : Resolution) :
  cachedScreenResolution this = Some cached ->
  getScreenResolution deviceId device this = Run this [] (Returned (Some cached)).
Proof.
  intros Hc. unfold getScreenResolution, bind, getThis. cbn [result final trace].
  by rewrite Hc.
Qed.

(** X1. Whatever width and height the device prints, up to 2^53,
    getScreenResolution reads them back: on an empty Resolution Cache, an
    answer made of a text without digits, the width, the letter x, the height
    and a rest that does not start with a digit gives exactly that width and
    height, returned and held by the Resolution Cache after a single
    command. *)
Theorem resolution_of_printed_size (deviceId : string) (this : CacheManagement)
  (device : Device) (before after : string) (w h : N) :
  cachedScreenResolution this = None ->
  exactNumber w -> exactNumber h ->
  noDigits (list_ascii_of_string before) ->
  noDigitAhead (list_ascii_of_string after) ->
  device (sizeCommand deviceId)
  = Returned (before ++ numberToString w ++ "x" ++ numberToString h ++ after)%string ->
  let r := getScreenResolution deviceId device this in
  result r = Returned (Some (mkResolution w h))
  /\ cachedScreenResolution (final r) = Some (mkResolution w h)
  /\ trace r = [ExecCommand (sizeCommand deviceId)].
Proof.
  intros Hmiss _ _ Hbefore Hafter Hdev r. subst r.
  rewrite (getScreenResolution_miss _ _ _ Hmiss), Hdev.
  rewrite !list_ascii_of_string_app. cbn [list_ascii_of_string app].
  rewrite regexMatch_after_prefix by done.
  change (["x"%char] ++ ?l) with ("x"%char :: l).
  rewrite regexMatch_at_head;
    auto using numberToString_nonempty, numberToString_digits.
  by rewrite !parseInt_numberToString.
Qed.

Lemma resolution_of_printed_size_witness :
  result (getScreenResolution "emulator-5554"
            (fun _ => Returned "Physical size: 720x1280 Override size: 1080x2400")
            newCache)
  = Returned (Some (mkResolution 720 1280)).
Proof.
  apply (resolution_of_printed_size "emulator-5554" newCache _
           "Physical size: " " Override size: 1080x2400" 720 1280).
  - reflexivity.
  - unfold exactNumber. lia.
  - unfold exactNumber. lia.
  - repeat constructor.
  - reflexivity.
  - reflexivity.
Defined.

(** X2. getScreenResolution never rejects and never asks twice: it settles
    with a value after at most one command, and it leaves the Hierarchy Cache,
    the Element Cache and the current activity as they were. *)
Theorem getScreenResolution_never_throws (deviceId : string) (this : CacheManagement)
  (device : Device) :
  let r := getScreenResolution deviceId device this in
  (exists answer, result r = Returned answer)
  /\ (trace r = [] \/ trace r = [ExecCommand (sizeCommand deviceId)])
  /\ cachedScreenHierarchy (final r) = cachedScreenHierarchy this
  /\ cachedElement (final r) = cachedElement this
  /\ currentActivity (final r) = currentActivity this.
Proof.
  intros r. subst r.
  destruct (cachedScreenResolution this) as [cached|] eqn:Hc.
  - rewrite (getScreenResolution_hit _ _ _ _ Hc). cbn.
    split; [eauto|]. split; [by left | done].
  - rewrite (getScreenResolution_miss _ _ _ Hc).
    destruct (device (sizeCommand deviceId)) as [s|e];
      [destruct (regexMatch (list_ascii_of_string s)) as [[g1 g2]|]|];
      cbn; (split; [eauto|]); (split; [by right | done]).
Qed.

(** X3. A resolution, once returned, is what every later call returns: after
    any call that gave a resolution, getScreenResolution answers the same
    resolution without asking the device, whatever the device now reports. *)
Theorem resolution_is_sticky (deviceId : string) (this : CacheManagement)
  (device device' : Device) (resolution : Resolution) :
  result (getScreenResolution deviceId device this) = Returned (Some resolution) ->
  let first := getScreenResolution deviceId device this in
  getScreenResolution deviceId device' (final first)
  = Run (final first) [] (Returned (Some resolution)).
Proof.
  intros Hres first. apply getScreenResolution_hit. subst first. revert Hres.
  destruct (cachedScreenResolution this) as [cached|] eqn:Hc.
  - rewrite (getScreenResolution_hit _ _ _ _ Hc). cbn. congruence.
  - rewrite (getScreenResolution_miss _ _ _ Hc).
    destruct (device (sizeCommand deviceId)) as [s|e]; [|done].
    destruct (regexMatch (list_ascii_of_string s)) as [[g1 g2]|]; [|done].
    cbn. congruence.
Qed.

Lemma resolution_is_sticky_witness :
  getScreenResolution "emulator-5554" brokenDevice
    (final (getScreenResolution "emulator-5554" sampleDevice newCache))
  = Run (final (getScreenResolution "emulator-5554" sampleDevice newCache)) []
        (Returned (Some (mkResolution 1080 2400))).
Proof.
  apply (resolution_is_sticky "emulator-5554" newCache sampleDevice brokenDevice
           (mkResolution 1080 2400)).
  reflexivity.
Defined.

(** ** The bounds pattern *)

Lemma expectChar_inv (c : ascii) (s rest : list ascii) :
  expectChar c s = Some rest <-> s = c :: rest.
Proof.
  destruct s as [|c' s]; simpl; [done|].
  destruct (Ascii.eqb_spec c' c) as [->|Hne]; split; congruence.
Qed.

Lemma digitsThen_app (c : ascii) (ds rest : list ascii) :
  ds <> [] -> allDigits ds -> isDigit c = false ->
  digitsThen c (ds ++ c :: rest) = Some (ds, rest).
Proof.
  intros Hne Hds Hc. unfold digitsThen.
  rewrite (spanDigits_app ds (c :: rest)) by done.
  destruct ds; [done|]. simpl. by rewrite Ascii.eqb_refl.
Qed.

Lemma digitsThen_inv (c : ascii) (s ds rest : list ascii) :
  digitsThen c s = Some (ds, rest) ->
  s = ds ++ c :: rest /\ ds <> [] /\ allDigits ds.
Proof.
  unfold digitsThen. destruct (spanDigits s) as [d r] eqn:Hs.
  destruct d as [|c0 d]; [done|].
  destruct (expectChar c r) as [r'|] eqn:He; [|done]. intros [= <- <-].
  apply expectChar_inv in He as ->.
  by apply spanDigits_inv in Hs as (-> & Hd & _).
Qed.

Lemma matchBoundsHere_complete (s g1 g2 g3 g4 : list ascii) :
  boundsAtHead s g1 g2 g3 g4 -> matchBoundsHere s = Some (g1, g2, g3, g4).
Proof.
  intros (rest & -> & [? ?] & [? ?] & [? ?] & [? ?]).
  unfold matchBoundsHere. cbn [expectChar Ascii.eqb Bool.eqb andb].
  rewrite digitsThen_app by done.
  rewrite digitsThen_app by done. cbn [expectChar Ascii.eqb Bool.eqb andb].
  rewrite digitsThen_app by done.
  by rewrite digitsThen_app by done.
Qed.

Lemma matchBoundsHere_sound (s g1 g2 g3 g4 : list ascii) :
  matchBoundsHere s = Some (g1, g2, g3, g4) -> boundsAtHead s g1 g2 g3 g4.
Proof.
  unfold matchBoundsHere.
  destruct (expectChar "[" s) as [r0|] eqn:H0; [|done].
  destruct (digitsThen "," r0) as [[h1 r1]|] eqn:H1; [|done].
  destruct (digitsThen "]" r1) as [[h2 r2]|] eqn:H2; [|done].
  destruct (expectChar "[" r2) as [r3|] eqn:H3; [|done].
  destruct (digitsThen "," r3) as [[h3 r4]|] eqn:H4; [|done].
  destruct (digitsThen "]" r4) as [[h4 r5]|] eqn:H5; [|done].
  intros [= <- <- <- <-].
  apply expectChar_inv in H0 as ->. apply expectChar_inv in H3 as ->.
  apply digitsThen_inv in H1 as (-> & ? & ?).
  apply digitsThen_inv in H2 as (-> & ? & ?).
  apply digitsThen_inv in H4 as (-> & ? & ?).
  apply digitsThen_inv in H5 as (-> & ? & ?).
  by exists r5.
Qed.

Lemma boundsMatch_sound (s g1 g2 g3 g4 : list ascii) :
  boundsMatch s = Some (g1, g2, g3, g4) ->
  exists before after, s = before ++ after /\ boundsAtHead after g1 g2 g3 g4.
Proof.
  induction s as [|c s IH]; cbn [boundsMatch].
  - destruct (matchBoundsHere []) eqn:Hm; [done | done].
  - destruct (matchBoundsHere (c :: s)) as [[[[h1 h2] h3] h4]|] eqn:Hm.
    + intros [= -> -> -> ->]. exists [], (c :: s). split; [done|].
      by apply matchBoundsHere_sound.
    + intros Hs. destruct (IH Hs) as (before & after & -> & Hat).
      by exists (c :: before), after.
Qed.

Lemma boundsMatch_None (s : list ascii) :
  boundsMatch s = None -> ~ containsBounds s.
Proof.
  induction s as [|c s IH]; cbn [boundsMatch].
  - intros _ ([|? ?] & after & g1 & g2 & g3 & g4 & Heq & Hat); [|done].
    simpl in Heq. subst after. by destruct Hat as (rest & ? & _).
  - destruct (matchBoundsHere (c :: s)) eqn:Hm; [done|].
    intros Hs ([|c' before] & after & g1 & g2 & g3 & g4 & Heq & Hat).
    + simpl in Heq. subst after.
      apply matchBoundsHere_complete in Hat. congruence.
    + injection Heq as <- ->. apply (IH Hs).
      by exists before, after, g1, g2, g3, g4.
Qed.

Lemma boundsText_chars (x1 y1 x2 y2 : N) :
  list_ascii_of_string (boundsText x1 y1 x2 y2)
  = "["%char :: list_ascii_of_string (numberToString x1)
    ++ ","%char :: list_ascii_of_string (numberToString y1)
    ++ "]"%char :: "["%char :: list_ascii_of_string (numberToString x2)
    ++ ","%char :: list_ascii_of_string (numberToString y2) ++ "]"%char :: [].
Proof.
  unfold boundsText. rewrite !list_ascii_of_string_app. reflexivity.
Qed.

Lemma boundsMatch_boundsText (x1 y1 x2 y2 : N) :
  boundsMatch (list_ascii_of_string (boundsText x1 y1 x2 y2))
  = Some (list_ascii_of_string (numberToString x1),
          list_ascii_of_string (numberToString y1),
          list_ascii_of_string (numberToString x2),
          list_ascii_of_string (numberToString y2)).
Proof.
  rewrite boundsText_chars. cbn [boundsMatch].
  rewrite (matchBoundsHere_complete _ (list_ascii_of_string (numberToString x1))
             (list_ascii_of_string (numberToString y1))
             (list_ascii_of_string (numberToString x2))
             (list_ascii_of_string (numberToString y2))); [done|].
  exists [].
  repeat split; auto using numberToString_nonempty, numberToString_digits.
Qed.

Lemma boundsText_truthy (x1 y1 x2 y2 : N) :
  truthy (Some (VStr (boundsText x1 y1 x2 y2))) = true.
Proof. reflexivity. Qed.

(** X4. parseBounds reads back what a bounds attribute prints: for four
    coordinates up to 2^53, the text [[x1,y1][x2,y2]] parses to exactly those
    four numbers. *)
Theorem parseBounds_round_trip (x1 y1 x2 y2 : N) :
  exactNumber x1 -> exactNumber y1 -> exactNumber x2 -> exactNumber y2 ->
  parseBounds (boundsText x1 y1 x2 y2) = Returned [x1; y1; x2; y2].
Proof.
  intros _ _ _ _. unfold parseBounds. rewrite boundsMatch_boundsText.
  by rewrite !parseInt_numberToString.
Qed.

Lemma parseBounds_round_trip_witness :
  parseBounds (boundsText 0 10 101 200) = Returned [0; 10; 101; 200]%N.
Proof.
  apply (parseBounds_round_trip 0 10 101 200); unfold exactNumber; lia.
Defined.

(** X5. parseBounds succeeds exactly on the texts that contain a
    [[x1,y1][x2,y2]] group of four integers, anywhere in the text: it then
    returns four numbers read from such a group; on every other text it
    throws the invalid-format error. *)
Theorem parseBounds_succeeds_iff_contains (bounds : string) :
  (forall numbers, parseBounds bounds = Returned numbers ->
     exists before after g1 g2 g3 g4,
       list_ascii_of_string bounds = before ++ after
       /\ boundsAtHead after g1 g2 g3 g4
       /\ numbers = [parseInt g1; parseInt g2; parseInt g3; parseInt g4])
  /\ (containsBounds (list_ascii_of_string bounds) ->
      exists numbers, parseBounds bounds = Returned numbers)
  /\ (~ containsBounds (list_ascii_of_string bounds) ->
      parseBounds bounds = Thrown "Format des bounds invalide").
Proof.
  unfold parseBounds.
  destruct (boundsMatch (list_ascii_of_string bounds)) as [[[[g1 g2] g3] g4]|] eqn:Hm.
  - split; [|split].
    + intros numbers [= <-].
      destruct (boundsMatch_sound _ _ _ _ _ Hm) as (before & after & Heq & Hat).
      by exists before, after, g1, g2, g3, g4.
    + eauto.
    + intros Hno. destruct Hno.
      destruct (boundsMatch_sound _ _ _ _ _ Hm) as (before & after & Heq & Hat).
      by exists before, after, g1, g2, g3, g4.
  - split; [done|]. split; [|done].
    intros Hc. by apply boundsMatch_None in Hm.
Qed.

Lemma parseBounds_succeeds_iff_contains_witness :
  parseBounds "no bounds here" = Thrown "Format des bounds invalide".
Proof.
  apply (parseBounds_succeeds_iff_contains "no bounds here").
  apply boundsMatch_None. reflexivity.
Defined.

(** ** Screen interactions *)

Lemma clickElement_boundsText (deviceId : string) (device : Device)
  (element : UIHierarchy) (x1 y1 x2 y2 : N) :
  element !! "bounds" = Some (VStr (boundsText x1 y1 x2 y2)) ->
  clickElement deviceId device element
  = clickAtCoordinates deviceId device ((x1 + x2) / 2) ((y1 + y2) / 2).
Proof.
  intros Hb. unfold clickElement, clickAtCoordinates.
  rewrite Hb, boundsText_truthy. cbn [negb].
  rewrite boundsMatch_boundsText. by rewrite !parseInt_numberToString.
Qed.

Lemma coerce_boundsText (x1 y1 x2 y2 : N) :
  coerce (boundsText x1 y1 x2 y2) = VStr (boundsText x1 y1 x2 y2).
Proof. reflexivity. Qed.

(** X6. clickElement taps the centre of the element: with a bounds attribute
    [[x1,y1][x2,y2]] whose sums x1+x2 and y1+y2 do not exceed 2^53, it issues
    the one tap command of clickAtCoordinates at the rounded-down midpoint,
    and for bounds given in order that point lies within them. *)
Theorem clickElement_taps_centre (deviceId : string) (device : Device)
  (element : UIHierarchy) (x1 y1 x2 y2 : N) :
  element !! "bounds" = Some (VStr (boundsText x1 y1 x2 y2)) ->
  exactNumber (x1 + x2) -> exactNumber (y1 + y2) ->
  let x := ((x1 + x2) / 2)%N in
  let y := ((y1 + y2) / 2)%N in
  clickElement deviceId device element = clickAtCoordinates deviceId device x y
  /\ (clickElement deviceId device element).1
     = [ExecCommand (tapCommand deviceId (numberToString x) (numberToString y))]
  /\ ((x1 <= x2)%N -> (x1 <= x <= x2)%N)
  /\ ((y1 <= y2)%N -> (y1 <= y <= y2)%N).
Proof.
  intros Hb _ _ x y. rewrite (clickElement_boundsText _ _ _ _ _ _ _ Hb).
  split; [done|]. split.
  - unfold clickAtCoordinates, ioBind, ioExec. cbn [fst snd].
    destruct (device _); cbn; by rewrite ?app_nil_r.
  - subst x y. split; intros Hle.
    + pose proof (N.Div0.div_le_mono (x1 + x1) (x1 + x2) 2 ltac:(lia)) as Hlo.
      pose proof (N.Div0.div_le_mono (x1 + x2) (x2 + x2) 2 ltac:(lia)) as Hhi.
      replace (x1 + x1)%N with (x1 * 2)%N in Hlo by lia.
      replace (x2 + x2)%N with (x2 * 2)%N in Hhi by lia.
      rewrite N.div_mul in Hlo, Hhi by done. lia.
    + pose proof (N.Div0.div_le_mono (y1 + y1) (y1 + y2) 2 ltac:(lia)) as Hlo.
      pose proof (N.Div0.div_le_mono (y1 + y2) (y2 + y2) 2 ltac:(lia)) as Hhi.
      replace (y1 + y1)%N with (y1 * 2)%N in Hlo by lia.
      replace (y2 + y2)%N with (y2 * 2)%N in Hhi by lia.
      rewrite N.div_mul in Hlo, Hhi by done. lia.
Qed.

Lemma clickElement_taps_centre_witness :
  (clickElement "emulator-5554" sampleDevice
     {[ "bounds" := VStr (boundsText 0 10 101 200) ]}).1
  = [ExecCommand (tapCommand "emulator-5554" (numberToString 50) (numberToString 105))].
Proof.
  apply (clickElement_taps_centre "emulator-5554" sampleDevice
           {[ "bounds" := VStr (boundsText 0 10 101 200) ]} 0 10 101 200).
  - reflexivity.
  - unfold exactNumber. lia.
  - unfold exactNumber. lia.
Defined.

(** X7. An element flattened from a node whose bounds attribute is
    [[x1,y1][x2,y2]], with sums x1+x2 and y1+y2 up to 2^53, can be clicked as
    it is: the flattener keeps the bounds text, and clickElement on the
    node's record is clickAtCoordinates at the midpoint of the bounds. *)
Theorem clickElement_on_flattened_node (deviceId : string) (device : Device)
  (attrs : gmap string string) (x1 y1 x2 y2 : N) :
  attrs !! "bounds" = Some (boundsText x1 y1 x2 y2) ->
  exactNumber (x1 + x2) -> exactNumber (y1 + y2) ->
  buildElement attrs !! "bounds" = Some (VStr (boundsText x1 y1 x2 y2))
  /\ clickElement deviceId device (buildElement attrs)
     = clickAtCoordinates deviceId device ((x1 + x2) / 2) ((y1 + y2) / 2).
Proof.
  intros Hb _ _.
  assert (buildElement attrs !! "bounds" = Some (VStr (boundsText x1 y1 x2 y2)))
    as Hkept by (by rewrite buildElement_lookup, Hb).
  split; [exact Hkept|]. by apply clickElement_boundsText.
Qed.

Lemma clickElement_on_flattened_node_witness :
  clickElement "emulator-5554" sampleDevice
    (buildElement {[ "bounds" := boundsText 0 10 101 200; "clickable" := "true" ]})
  = clickAtCoordinates "emulator-5554" sampleDevice ((0 + 101) / 2) ((10 + 200) / 2).
Proof.
  apply (clickElement_on_flattened_node "emulator-5554" sampleDevice
           {[ "bounds" := boundsText 0 10 101 200; "clickable" := "true" ]}
           0 10 101 200).
  - reflexivity.
  - unfold exactNumber. lia.
  - unfold exactNumber. lia.
Defined.

(** X8. Without usable bounds no command reaches the device. When the bounds
    attribute is missing, false or empty, clickElement and longClickOnElement
    both return quietly. When it is a text without a [[x1,y1][x2,y2]] group,
    clickElement still returns quietly, but longClickOnElement rejects with
    the invalid-format error. *)
Theorem no_command_without_usable_bounds (deviceId : string) (device : Device)
  (element : UIHierarchy) (duration : option N) :
  (truthy (element !! "bounds") = false ->
     clickElement deviceId device element = ([], Returned tt)
     /\ longClickOnElement deviceId device element duration = ([], Returned tt))
  /\ (forall bounds,
        element !! "bounds" = Some (VStr bounds) -> bounds <> "" ->
        ~ containsBounds (list_ascii_of_string bounds) ->
        clickElement deviceId device element = ([], Returned tt)
        /\ longClickOnElement deviceId device element duration
           = ([], Thrown "Format des bounds invalide")).
Proof.
  split.
  - intros Hf. unfold clickElement, longClickOnElement. by rewrite Hf.
  - intros bounds Hb Hne Hno.
    assert (truthy (element !! "bounds") = true) as Ht.
    { rewrite Hb. simpl. by destruct bounds. }
    assert (boundsMatch (list_ascii_of_string bounds) = None) as Hm.
    { destruct (boundsMatch (list_ascii_of_string bounds))
        as [[[[g1 g2] g3] g4]|] eqn:Hm; [|done].
      destruct Hno.
      destruct (boundsMatch_sound _ _ _ _ _ Hm) as (before & after & Heq & Hat).
      by exists before, after, g1, g2, g3, g4. }
    unfold clickElement, longClickOnElement, parseBounds.
    by rewrite Ht, Hb, Hm.
Qed.

Lemma no_command_without_usable_bounds_witness :
  clickElement "emulator-5554" sampleDevice btn1 = ([], Returned tt)
  /\ longClickOnElement "emulator-5554" sampleDevice btn1 None = ([], Returned tt).
Proof.
  apply (no_command_without_usable_bounds "emulator-5554" sampleDevice btn1 None).
  reflexivity.
Defined.

(** X9. longClickOnElement presses at the midpoint without rounding it, for
    bounds whose sums x1+x2 and y1+y2, and a duration that, do not exceed
    2^53: the press starts and ends at the same point for the given duration
    (1000 ms by default); a coordinate whose two bounds add up to an odd
    number is sent with the fraction .5, and when both sums are even the call
    is longClickAtCoordinates at the point clickElement would tap. *)
Theorem longClick_at_unrounded_centre (deviceId : string) (device : Device)
  (element : UIHierarchy) (duration : option N) (x1 y1 x2 y2 : N) :
  element !! "bounds" = Some (VStr (boundsText x1 y1 x2 y2)) ->
  exactNumber (x1 + x2) -> exactNumber (y1 + y2) ->
  exactNumber (default 1000%N duration) ->
  let x := halfToString (x1 + x2) in
  let y := halfToString (y1 + y2) in
  (longClickOnElement deviceId device element duration).1
  = [ExecCommand (swipeCommand deviceId x y x y
                    (numberToString (default 1000%N duration)))]
  /\ (N.odd (x1 + x2) = true ->
      x = (numberToString ((x1 + x2) / 2) ++ ".5")%string)
  /\ (N.odd (y1 + y2) = true ->
      y = (numberToString ((y1 + y2) / 2) ++ ".5")%string)
  /\ (N.even (x1 + x2) = true -> N.even (y1 + y2) = true ->
      longClickOnElement deviceId device element duration
      = longClickAtCoordinates deviceId device
          ((x1 + x2) / 2) ((y1 + y2) / 2) duration).
Proof.
  intros Hb _ _ _ x y. subst x y.
  assert (longClickOnElement deviceId device element duration
          = ioBind (ioExec device
                      (swipeCommand deviceId
                         (halfToString (x1 + x2)) (halfToString (y1 + y2))
                         (halfToString (x1 + x2)) (halfToString (y1 + y2))
                         (numberToString (default 1000%N duration))))
                   (fun _ => ioRet tt)) as Heq.
  { unfold longClickOnElement. rewrite Hb, boundsText_truthy. cbn [negb].
    unfold parseBounds. rewrite boundsMatch_boundsText.
    by rewrite !parseInt_numberToString. }
  rewrite Heq. split; [|split; [|split]].
  - unfold ioBind, ioExec. cbn [fst snd].
    destruct (device _); cbn; by rewrite ?app_nil_r.
  - intros Hodd. unfold halfToString.
    rewrite <- N.negb_odd, Hodd. reflexivity.
  - intros Hodd. unfold halfToString.
    rewrite <- N.negb_odd, Hodd. reflexivity.
  - intros Hx Hy. unfold longClickAtCoordinates, halfToString.
    by rewrite Hx, Hy.
Qed.

Lemma longClick_at_unrounded_centre_witness :
  (longClickOnElement "emulator-5554" sampleDevice
     {[ "bounds" := VStr (boundsText 0 10 101 200) ]} None).1
  = [ExecCommand (swipeCommand "emulator-5554"
                    (halfToString (0 + 101)) (halfToString (10 + 200))
                    (halfToString (0 + 101)) (halfToString (10 + 200))
                    (numberToString (default 1000%N None)))].
Proof.
  apply (longClick_at_unrounded_centre "emulator-5554" sampleDevice
           {[ "bounds" := VStr (boundsText 0 10 101 200) ]} None 0 10 101 200).
  - reflexivity.
  - unfold exactNumber. lia.
  - unfold exactNumber. lia.
  - unfold exactNumber. simpl. lia.
Defined.

(** X10. takeScreenshot never rejects, whatever goes wrong, and it stops at
    the first step that fails: when the screen capture fails it is the only
    command issued; when the listing fails or prints nothing, the capture and
    the listing are the only commands; otherwise the pull follows the two, and
    the call resolves whether the pull succeeds or not. *)
Theorem takeScreenshot_never_rejects (deviceId : string) (device : Device)
  (filePath : string) :
  let capture := ExecCommand (screencapCommand deviceId) in
  let listing := ExecCommand (lsCommand deviceId) in
  let pull := ExecCommand (pullCommand deviceId screenshotOnDevice filePath) in
  let r := takeScreenshot deviceId device filePath in
  r.2 = Returned tt
  /\ r.1 = match device (screencapCommand deviceId) with
           | Thrown _ => [capture]
           | Returned _ =>
               match device (lsCommand deviceId) with
               | Thrown _ => [capture; listing]
               | Returned printed =>
                   if String.eqb printed "" then [capture; listing]
                   else [capture; listing; pull]
               end
           end.
Proof.
  intros capture listing pull r. subst capture listing pull r.
  unfold takeScreenshot, ioCatch, ioBind, ioExec, ioThrow, ioRet. cbn [fst snd].
  destruct (device (screencapCommand deviceId)) as [out|e]; cbn [fst snd];
    [|done].
  destruct (device (lsCommand deviceId)) as [printed|e]; cbn [fst snd]; [|done].
  destruct (String.eqb printed ""); cbn [fst snd]; [done|].
  destruct (device (pullCommand deviceId screenshotOnDevice filePath));
    cbn [fst snd]; done.
Qed.

(** ** The caches, continued *)

Section CacheProperties.

Variable deviceId : string.
Variable parseStringPromise : string -> outcome xmlDocument.
Variable stringify : list UIHierarchy -> string.
Variable writeFileSync : string -> string -> outcome unit.

Local Abbreviation getHierarchy' :=
  (getScreenHierarchy deviceId parseStringPromise stringify writeFileSync).
Local Abbreviation obtain' := (obtainElements deviceId parseStringPromise stringify writeFileSync).
Local Abbreviation find' := (findElement deviceId parseStringPromise stringify writeFileSync).

(** X11. A failing getScreenHierarchy changes nothing: when it rejects, the
    cache was empty and every field is as before. The error is the device's
    or the parser's, or the TypeError of a document whose root is not
    [hierarchy], all three after the one dump command alone, or else it is
    the error of the file write, attempted after the dump. *)
Theorem getScreenHierarchy_failure_is_atomic (this : CacheManagement)
  (device : Device) (format : outputFormat) (outputFilePath : option string)
  (e : string) :
  result (getHierarchy' device format outputFilePath this) = Thrown e ->
  let r := getHierarchy' device format outputFilePath this in
  final r = this
  /\ cachedScreenHierarchy this = None
  /\ ((device (dumpCommand deviceId) = Thrown e
       /\ trace r = [ExecCommand (dumpCommand deviceId)])
      \/ exists hierarchyXML,
           device (dumpCommand deviceId) = Returned hierarchyXML
           /\ ((format = JSON
                /\ parseStringPromise hierarchyXML = Thrown e
                /\ trace r = [ExecCommand (dumpCommand deviceId)])
               \/ (format = JSON
                   /\ exists doc,
                        parseStringPromise hierarchyXML = Returned doc
                        /\ ((rootName doc <> "hierarchy" /\ e = "TypeError"
                             /\ trace r = [ExecCommand (dumpCommand deviceId)])
                            \/ (rootName doc = "hierarchy"
                                /\ writeOutcome writeFileSync outputFilePath
                                     (stringify (extractNodes (rootNode doc) []))
                                   = Thrown e
                                /\ trace r
                                   = ExecCommand (dumpCommand deviceId)
                                     :: fileWrites outputFilePath
                                          (stringify (extractNodes (rootNode doc) [])))))
               \/ (format = XML
                   /\ writeOutcome writeFileSync outputFilePath hierarchyXML = Thrown e
                   /\ trace r
                      = ExecCommand (dumpCommand deviceId)
                        :: fileWrites outputFilePath hierarchyXML))).
Proof.
  intros Hres r. subst r. revert Hres.
  destruct (cachedScreenHierarchy this) as [cached|] eqn:Hc.
  - by rewrite (getScreenHierarchy_hit deviceId parseStringPromise stringify
                  writeFileSync this cached device format outputFilePath Hc).
  - rewrite (getScreenHierarchy_miss deviceId parseStringPromise stringify
               writeFileSync this device format outputFilePath Hc).
    destruct (device (dumpCommand deviceId)) as [hierarchyXML|e'].
    + destruct format.
      * destruct (parseStringPromise hierarchyXML) as [doc|e'] eqn:Hp.
        -- destruct (String.eqb_spec (rootName doc) "hierarchy") as [Hroot|Hroot].
           ++ cbv zeta.
              destruct (writeOutcome writeFileSync outputFilePath _) as [u|e'] eqn:Hw;
                [done|].
              cbn. intros [= <-]. split; [done|]. split; [done|].
              right. exists hierarchyXML. split; [done|].
              right. left. split; [done|]. exists doc. split; [done|].
              right. done.
           ++ cbn. intros [= <-]. split; [done|]. split; [done|].
              right. exists hierarchyXML. split; [done|].
              right. left. split; [done|]. exists doc. split; [done|].
              left. done.
        -- cbn. intros [= <-]. split; [done|]. split; [done|].
           right. exists hierarchyXML. split; [done|]. left. done.
      * destruct (writeOutcome writeFileSync outputFilePath hierarchyXML)
          as [u|e'] eqn:Hw; [done|].
        cbn. intros [= <-]. split; [done|]. split; [done|].
        right. exists hierarchyXML. split; [done|]. right. right. done.
    + cbn. intros [= <-]. split; [done|]. split; [done|]. left. done.
Qed.

(** X12. A request for the raw markup never fills the Hierarchy Cache: on an
    empty cache it asks the device, then writes the answer to the output path
    when one is given, and leaves every field unchanged; it returns the
    device's answer as it is when that write succeeds or none is made, and
    rejects with the error of the write otherwise. In both cases the next
    request, of either format, asks the device again. *)
Theorem raw_markup_is_never_cached (this : CacheManagement) (device : Device)
  (outputFilePath : option string) (hierarchyXML : string) :
  cachedScreenHierarchy this = None ->
  device (dumpCommand deviceId) = Returned hierarchyXML ->
  let r := getHierarchy' device XML outputFilePath this in
  final r = this
  /\ trace r
     = ExecCommand (dumpCommand deviceId) :: fileWrites outputFilePath hierarchyXML
  /\ (writeSucceeds writeFileSync outputFilePath hierarchyXML ->
      result r = Returned (RawMarkup hierarchyXML))
  /\ (forall e, writeOutcome writeFileSync outputFilePath hierarchyXML = Thrown e ->
                result r = Thrown e)
  /\ forall device' format' outputFilePath',
       head (trace (getHierarchy' device' format' outputFilePath' (final r)))
       = Some (ExecCommand (dumpCommand deviceId)).
Proof.
  intros Hmiss Hdev r. subst r.
  rewrite (getScreenHierarchy_miss deviceId parseStringPromise stringify
             writeFileSync this device XML outputFilePath Hmiss), Hdev.
  cbn [result final trace]. split; [done|]. split; [done|]. split; [|split].
  - unfold writeSucceeds. by intros ->.
  - by intros e ->.
  - intros device' format' path'.
    rewrite (getScreenHierarchy_miss deviceId parseStringPromise stringify
               writeFileSync this device' format' path' Hmiss).
    destruct (device' (dumpCommand deviceId)); [|done].
    destruct format'; [|done].
    destruct (parseStringPromise _); [|done].
    destruct (String.eqb _ _); [|done].
    cbv zeta. by destruct (writeOutcome _ _ _).
Qed.

(** X13. A flattened hierarchy, once returned, is what every later call
    returns: after any call that gave a flattened hierarchy,
    getScreenHierarchy answers that same hierarchy, for either format, with no
    command and no file write, whatever the device now shows. *)
Theorem hierarchy_is_sticky (this : CacheManagement) (device device' : Device)
  (format format' : outputFormat) (outputFilePath outputFilePath' : option string)
  (elements : list UIHierarchy) :
  result (getHierarchy' device format outputFilePath this)
  = Returned (Flattened elements) ->
  let first := getHierarchy' device format outputFilePath this in
  getHierarchy' device' format' outputFilePath' (final first)
  = Run (final first) [] (Returned (Flattened elements)).
Proof.
  intros Hres first. apply getScreenHierarchy_hit. subst first. revert Hres.
  destruct (cachedScreenHierarchy this) as [cached|] eqn:Hc.
  - rewrite (getScreenHierarchy_hit deviceId parseStringPromise stringify
               writeFileSync this cached device format outputFilePath Hc).
    cbn. congruence.
  - rewrite (getScreenHierarchy_miss deviceId parseStringPromise stringify
               writeFileSync this device format outputFilePath Hc).
    destruct (device (dumpCommand deviceId)); [|done].
    destruct format.
    + destruct (parseStringPromise _); [|done].
      destruct (String.eqb _ _); [|done].
      cbv zeta. destruct (writeOutcome _ _ _); [|done].
      cbn. congruence.
    + by destruct (writeOutcome _ _ _).
Qed.

End CacheProperties.

Lemma getScreenHierarchy_failure_is_atomic_witness :
  final (getScreenHierarchy "emulator-5554" sampleParser sampleStringify readOnlyDisk
           sampleDevice JSON (Some "dump.json") newCache)
  = newCache.
Proof.
  apply (getScreenHierarchy_failure_is_atomic "emulator-5554" sampleParser
           sampleStringify readOnlyDisk newCache sampleDevice JSON (Some "dump.json")
           "EACCES: permission denied").
  reflexivity.
Defined.

Lemma raw_markup_is_never_cached_witness :
  result (getScreenHierarchy "emulator-5554" sampleParser sampleStringify sampleWrite
            sampleDevice XML (Some "dump.xml") newCache)
  = Returned (RawMarkup sampleMarkup).
Proof.
  apply (raw_markup_is_never_cached "emulator-5554" sampleParser sampleStringify
           sampleWrite newCache sampleDevice (Some "dump.xml") sampleMarkup);
    reflexivity.
Defined.

Lemma hierarchy_is_sticky_witness :
  getScreenHierarchy "emulator-5554" sampleParser sampleStringify sampleWrite
    brokenDevice XML (Some "dump.xml")
    (final (getScreenHierarchy "emulator-5554" sampleParser sampleStringify sampleWrite
              sampleDevice JSON None newCache))
  = Run (final (getScreenHierarchy "emulator-5554" sampleParser sampleStringify sampleWrite
                  sampleDevice JSON None newCache))
        [] (Returned (Flattened (extractNodes sampleRoot []))).
Proof.
  apply (hierarchy_is_sticky "emulator-5554" sampleParser sampleStringify sampleWrite
           newCache sampleDevice brokenDevice JSON XML None (Some "dump.xml")
           (extractNodes sampleRoot [])).
  reflexivity.
Defined.

Section FindProperties.

Variable deviceId : string.
Variable parseStringPromise : string -> outcome xmlDocument.
Variable stringify : list UIHierarchy -> string.
Variable writeFileSync : string -> string -> outcome unit.

Local Abbreviation getHierarchy'' :=
  (getScreenHierarchy deviceId parseStringPromise stringify writeFileSync).
Local Abbreviation obtain'' := (obtainElements deviceId parseStringPromise stringify writeFileSync).
Local Abbreviation find'' := (findElement deviceId parseStringPromise stringify writeFileSync).

Lemma getScreenHierarchy_final (this : CacheManagement) (device : Device)
  (format : outputFormat) (outputFilePath : option string) :
  let r := getHierarchy'' device format outputFilePath this in
  final r = this
  \/ (cachedScreenHierarchy this = None
      /\ exists elements,
           final r = set_cachedScreenHierarchyValue (Some elements) this
           /\ result r = Returned (Flattened elements)).
Proof.
  intros r. subst r.
  destruct (cachedScreenHierarchy this) as [cached|] eqn:Hc.
  - left. by rewrite (getScreenHierarchy_hit _ _ _ _ _ _ _ _ _ Hc).
  - rewrite (getScreenHierarchy_miss _ _ _ _ _ _ _ _ Hc).
    destruct (device (dumpCommand deviceId)); [|by left].
    destruct format; [|by left].
    destruct (parseStringPromise _); [|by left].
    destruct (String.eqb _ _); [|by left].
    cbv zeta. destruct (writeOutcome _ _ _); [|by left].
    right. split; [done|]. eauto.
Qed.

Lemma obtainElements_final (this : CacheManagement) (device : Device)
  (screenHierarchyJSON : option (list UIHierarchy)) :
  let r := obtain'' device screenHierarchyJSON this in
  final r = this
  \/ (cachedScreenHierarchy this = None /\ screenHierarchyJSON = None
      /\ exists elements,
           final r = set_cachedScreenHierarchyValue (Some elements) this
           /\ result r = Returned elements).
Proof.
  intros r. subst r. unfold obtainElements.
  destruct screenHierarchyJSON as [supplied|]; [by left|].
  unfold bind.
  destruct (getScreenHierarchy_final this device JSON None)
    as [Hsame | (Hnone & elements & Hfinal & Hres)].
  - left. destruct (result (getHierarchy'' device JSON None this)) as [[l|x]|e];
      cbn [final]; exact Hsame.
  - right. rewrite Hres. unfold ret. cbn [result final trace].
    rewrite Hfinal. split; [done|]. split; [done|].
    by exists elements.
Qed.

Lemma findElement_miss_thrown (this : CacheManagement) (device : Device)
  (conditions : UIHierarchy) (screenHierarchyJSON : option (list UIHierarchy))
  (attributes : option (list string)) (e : string) :
  cachedElement this = None ->
  result (obtain'' device screenHierarchyJSON this) = Thrown e ->
  find'' device conditions screenHierarchyJSON attributes this
  = Run (final (obtain'' device screenHierarchyJSON this))
        (trace (obtain'' device screenHierarchyJSON this)) (Thrown e).
Proof.
  intros Hmiss Hthrown. unfold findElement, bind, getThis.
  cbn [result final trace]. rewrite Hmiss. cbn [app]. by rewrite Hthrown.
Qed.

Lemma findElement_final (this : CacheManagement) (device : Device)
  (conditions : UIHierarchy) (screenHierarchyJSON : option (list UIHierarchy))
  (attributes : option (list string)) :
  let o := obtain'' device screenHierarchyJSON this in
  let f := find'' device conditions screenHierarchyJSON attributes this in
  (exists cached, cachedElement this = Some cached /\ final f = this)
  \/ (cachedElement this = None
      /\ (final f = final o
          \/ exists only, final f = set_cachedElementValue (Some only) (final o))).
Proof.
  intros o f. subst o f.
  destruct (cachedElement this) as [cached|] eqn:Hc.
  - left. exists cached. split; [done|].
    by rewrite (findElement_hit _ _ _ _ _ _ _ _ _ _ Hc).
  - right. split; [done|].
    destruct (result (obtain'' device screenHierarchyJSON this))
      as [elements|e] eqn:Hres.
    + rewrite (findElement_miss _ _ _ _ _ _ _ _ _ _ Hc Hres). cbv zeta.
      destruct (List.map _ _) as [|only [|? ?]]; cbn [final]; eauto.
    + rewrite (findElement_miss_thrown _ _ _ _ _ _ Hc Hres). by left.
Qed.

(** X14. The three cache operations only ever fill an empty slot of their
    own: getScreenHierarchy leaves the Element Cache, the Resolution Cache and
    the current activity alone; findElement leaves the Resolution Cache and
    the current activity alone; and none of the three replaces a value that a
    slot already holds. *)
Theorem caches_only_fill_empty_slots (this : CacheManagement)
  (device : Device) (format : outputFormat) (outputFilePath : option string)
  (conditions : UIHierarchy) (screenHierarchyJSON : option (list UIHierarchy))
  (attributes : option (list string)) :
  let h := getHierarchy'' device format outputFilePath this in
  let f := find'' device conditions screenHierarchyJSON attributes this in
  let g := getScreenResolution deviceId device this in
  (cachedElement (final h) = cachedElement this
   /\ cachedScreenResolution (final h) = cachedScreenResolution this
   /\ currentActivity (final h) = currentActivity this
   /\ forall c, cachedScreenHierarchy this = Some c ->
                cachedScreenHierarchy (final h) = Some c)
  /\ (cachedScreenResolution (final f) = cachedScreenResolution this
      /\ currentActivity (final f) = currentActivity this
      /\ (forall c, cachedElement this = Some c -> cachedElement (final f) = Some c)
      /\ forall c, cachedScreenHierarchy this = Some c ->
                   cachedScreenHierarchy (final f) = Some c)
  /\ forall c, cachedScreenResolution this = Some c ->
               cachedScreenResolution (final g) = Some c.
Proof.
  intros h f g. subst h f g. split; [|split].
  - destruct (getScreenHierarchy_final this device format outputFilePath)
      as [-> | (Hnone & elements & -> & _)]; [done|].
    cbn. repeat split. intros c Hc. congruence.
  - destruct (findElement_final this device conditions screenHierarchyJSON attributes)
      as [(cached & Hc & ->) | (Hnone & Hfinal)]; [done|].
    assert (forall s : CacheManagement,
              s = final (obtain'' device screenHierarchyJSON this) ->
              cachedScreenResolution s = cachedScreenResolution this
              /\ currentActivity s = currentActivity this
              /\ cachedElement s = cachedElement this
              /\ forall c, cachedScreenHierarchy this = Some c ->
                           cachedScreenHierarchy s = Some c) as Ho.
    { intros s ->.
      destruct (obtainElements_final this device screenHierarchyJSON)
        as [-> | (Hn & _ & elements & -> & _)]; [done|].
      cbn. repeat split. intros c Hc. congruence. }
    destruct (Ho _ eq_refl) as (Hr & Ha & He & Hh).
    destruct Hfinal as [-> | (only & ->)].
    + repeat split; try done. intros c Hc. congruence.
    + cbn. repeat split; try done. intros c Hc. congruence.
  - intros c Hc. by rewrite (getScreenResolution_hit _ _ _ _ Hc).
Qed.

(** X15. With a hierarchy supplied by the caller, findElement is independent
    of the device: it issues no command and writes no file, it never rejects,
    it leaves the Hierarchy Cache as it was, and it gives the same run against
    any two devices. *)
Theorem findElement_on_supplied_hierarchy (this : CacheManagement)
  (device device' : Device) (conditions : UIHierarchy)
  (supplied : list UIHierarchy) (attributes : option (list string)) :
  let r := find'' device conditions (Some supplied) attributes this in
  trace r = []
  /\ (exists answer, result r = Returned answer)
  /\ cachedScreenHierarchy (final r) = cachedScreenHierarchy this
  /\ find'' device' conditions (Some supplied) attributes this = r.
Proof.
  intros r. subst r.
  destruct (cachedElement this) as [cached|] eqn:Hc.
  - rewrite !(findElement_hit _ _ _ _ _ _ _ _ _ _ Hc). cbn. eauto.
  - rewrite !(findElement_miss _ _ _ _ this _ conditions (Some supplied) attributes
               supplied Hc eq_refl).
    cbv zeta. destruct (List.map _ _) as [|only [|? ?]]; cbn; eauto.
Qed.

(** X16. Without a supplied hierarchy, a failure to fetch one is the failure
    of findElement: on an empty Element Cache, when getScreenHierarchy rejects,
    findElement rejects with the same error and leaves every field as it
    was. *)
Theorem findElement_propagates_fetch_failure (this : CacheManagement)
  (device : Device) (conditions : UIHierarchy)
  (attributes : option (list string)) (e : string) :
  cachedElement this = None ->
  result (getHierarchy'' device JSON None this) = Thrown e ->
  let r := find'' device conditions None attributes this in
  result r = Thrown e
  /\ final r = this
  /\ trace r = [ExecCommand (dumpCommand deviceId)].
Proof.
  intros Hmiss Hthrown r. subst r.
  assert (obtain'' device None this
          = Run this [ExecCommand (dumpCommand deviceId)] (Thrown e)) as Ho.
  { unfold obtainElements, bind. rewrite Hthrown. revert Hthrown.
    destruct (cachedScreenHierarchy this) as [cached|] eqn:Hc.
    - by rewrite (getScreenHierarchy_hit _ _ _ _ _ _ _ _ _ Hc).
    - rewrite (getScreenHierarchy_miss _ _ _ _ _ _ _ _ Hc).
      destruct (device (dumpCommand deviceId)); [|done].
      destruct (parseStringPromise _); [|done].
      by destruct (String.eqb _ _). }
  rewrite (findElement_miss_thrown this device conditions None attributes e Hmiss)
    by (by rewrite Ho).
  by rewrite Ho.
Qed.

(** X17. Without a supplied hierarchy, findElement searches the Hierarchy
    Cache when it holds one: the call is then the same run as the call with
    the cached hierarchy supplied, against any device. *)
Theorem findElement_searches_cached_hierarchy (this : CacheManagement)
  (device device' : Device) (conditions : UIHierarchy)
  (attributes : option (list string)) (cached : list UIHierarchy) :
  cachedScreenHierarchy this = Some cached ->
  find'' device conditions None attributes this
  = find'' device' conditions (Some cached) attributes this.
Proof.
  intros Hh.
  destruct (cachedElement this) as [element|] eqn:Hc.
  - by rewrite !(findElement_hit _ _ _ _ _ _ _ _ _ _ Hc).
  - assert (obtain'' device None this = Run this [] (Returned cached)) as Ho.
    { unfold obtainElements, bind.
      by rewrite (getScreenHierarchy_hit _ _ _ _ _ _ _ _ _ Hh). }
    rewrite (findElement_miss _ _ _ _ this device conditions None attributes
               cached Hc) by (by rewrite Ho).
    rewrite (findElement_miss _ _ _ _ this device' conditions (Some cached) attributes
               cached Hc eq_refl).
    by rewrite Ho.
Qed.

(** X18. What findElement returns tells what the Element Cache holds
    afterwards: a single element is always the cached one, while after null,
    after a sequence (which always has at least two records) and after a
    rejection the Element Cache is empty. *)
Theorem findElement_result_and_cache (this : CacheManagement) (device : Device)
  (conditions : UIHierarchy) (screenHierarchyJSON : option (list UIHierarchy))
  (attributes : option (list string)) :
  let r := find'' device conditions screenHierarchyJSON attributes this in
  match result r with
  | Returned NoMatch => cachedElement (final r) = None
  | Returned (SingleElement element) => cachedElement (final r) = Some element
  | Returned (ManyElements elements) =>
      (2 <= List.length elements)%nat /\ cachedElement (final r) = None
  | Thrown _ => cachedElement (final r) = None
  end.
Proof.
  intros r. subst r.
  destruct (cachedElement this) as [cached|] eqn:Hc.
  - by rewrite (findElement_hit _ _ _ _ _ _ _ _ _ _ Hc).
  - pose proof (obtainElements_cachedElement deviceId parseStringPromise stringify writeFileSync
                  this device screenHierarchyJSON) as Hsame.
    rewrite Hc in Hsame.
    destruct (result (obtain'' device screenHierarchyJSON this))
      as [elements|e] eqn:Hres.
    + rewrite (findElement_miss _ _ _ _ _ _ _ _ _ _ Hc Hres). cbv zeta.
      destruct (List.map _ _) as [|only [|second rest]]; cbn; try done.
      split; [lia | done].
    + by rewrite (findElement_miss_thrown _ _ _ _ _ _ Hc Hres).
Qed.

(** X19. A record of the hierarchy, used as the condition, is always found:
    on an empty Element Cache, findElement with a supplied hierarchy and one
    of its records as condition never returns null. *)
Theorem findElement_finds_own_record (this : CacheManagement) (device : Device)
  (supplied : list UIHierarchy) (attributes : option (list string))
  (record : UIHierarchy) :
  cachedElement this = None ->
  In record supplied ->
  result (find'' device record (Some supplied) attributes this) <> Returned NoMatch.
Proof.
  intros Hmiss Hin.
  rewrite (findElement_miss _ _ _ _ this device record (Some supplied) attributes
             supplied Hmiss eq_refl).
  cbv zeta.
  assert (In record (List.filter (isMatching record) supplied)) as Hf.
  { apply filter_In. split; [done|]. apply isMatching_spec. by intros key v. }
  destruct (List.filter (isMatching record) supplied) as [|e [|e' l]];
    [done | done | done].
Qed.

End FindProperties.

Lemma findElement_propagates_fetch_failure_witness :
  result (findElement "emulator-5554" sampleParser sampleStringify sampleWrite brokenDevice
            {[ "clickable" := VBool true ]} None None newCache)
  = Thrown "COMMAND_FAILED".
Proof.
  apply (findElement_propagates_fetch_failure "emulator-5554" sampleParser
           sampleStringify sampleWrite newCache brokenDevice {[ "clickable" := VBool true ]}
           None "COMMAND_FAILED");
    reflexivity.
Defined.

Lemma findElement_searches_cached_hierarchy_witness :
  findElement "emulator-5554" sampleParser sampleStringify sampleWrite brokenDevice
    {[ "clickable" := VBool true ]} None None
    (set_cachedScreenHierarchyValue (Some [btn1; btn2]) newCache)
  = findElement "emulator-5554" sampleParser sampleStringify sampleWrite sampleDevice
      {[ "clickable" := VBool true ]} (Some [btn1; btn2]) None
      (set_cachedScreenHierarchyValue (Some [btn1; btn2]) newCache).
Proof.
  apply (findElement_searches_cached_hierarchy "emulator-5554" sampleParser
           sampleStringify sampleWrite
           (set_cachedScreenHierarchyValue (Some [btn1; btn2]) newCache)
           brokenDevice sampleDevice {[ "clickable" := VBool true ]} None
           [btn1; btn2]).
  reflexivity.
Defined.

Lemma findElement_finds_own_record_witness :
  result (findElement "emulator-5554" sampleParser sampleStringify sampleWrite brokenDevice
            btn2 (Some [btn1; btn2]) None newCache)
  <> Returned NoMatch.
Proof.
  apply (findElement_finds_own_record "emulator-5554" sampleParser sampleStringify sampleWrite
           newCache brokenDevice [btn1; btn2] None btn2).
  - reflexivity.
  - right. left. reflexivity.
Defined.

(** ** Projection and matching, continued *)

(** X20. For requested attributes that are no member names of
    Object.prototype, the projection keeps exactly the requested attributes
    whose value is truthy, with that value: it is a part of the element, it is
    unchanged by projecting again, and it depends only on which attributes are
    requested, not on their order or repetition. *)
Theorem projection_keeps_truthy_requested (attrs : list string) (element : UIHierarchy) :
  ownNames attrs ->
  let projected := applyAttributesFilter (Some attrs) element in
  (forall key v,
     projected !! key = Some v
     <-> key ∈ attrs /\ element !! key = Some v /\ truthy (Some v) = true)
  /\ projected ⊆ element
  /\ applyAttributesFilter (Some attrs) projected = projected
  /\ (forall attrs', (forall key, key ∈ attrs <-> key ∈ attrs') ->
        applyAttributesFilter (Some attrs') element = projected).
Proof.
  intros _ projected. subst projected.
  assert (forall key v,
     applyAttributesFilter (Some attrs) element !! key = Some v
     <-> key ∈ attrs /\ element !! key = Some v /\ truthy (Some v) = true) as Hchar.
  { intros key v. rewrite applyAttributesFilter_lookup.
    destruct (decide (key ∈ attrs)) as [Hin|Hnin];
      [|split; [done | by intros (? & _)]].
    destruct (truthy (element !! key)) eqn:Ht.
    - split; [intros Hv; rewrite Hv in Ht; done|]. by intros (_ & ? & _).
    - split; [done|]. intros (_ & Hv & Hv'). rewrite Hv in Ht. congruence. }
  split; [exact Hchar|]. split; [|split].
  - apply map_subseteq_spec. intros key v Hv. by apply Hchar in Hv as (_ & ? & _).
  - apply map_eq. intros key. rewrite applyAttributesFilter_lookup.
    destruct (decide (key ∈ attrs)) as [Hin|Hnin].
    + destruct (applyAttributesFilter (Some attrs) element !! key) as [v|] eqn:Hv;
        [|done].
      apply Hchar in Hv as (_ & _ & Ht). by rewrite Ht.
    + rewrite applyAttributesFilter_lookup. by rewrite decide_False.
  - intros attrs' Hsame. apply map_eq. intros key.
    rewrite !applyAttributesFilter_lookup.
    destruct (decide (key ∈ attrs')) as [Hin|Hnin].
    + by rewrite decide_True by (by apply Hsame).
    + by rewrite decide_False by (by rewrite Hsame).
Qed.

Lemma projection_keeps_truthy_requested_witness :
  applyAttributesFilter (Some ["resourceId"; "clickable"]) btn2 ⊆ btn2.
Proof.
  apply (projection_keeps_truthy_requested ["resourceId"; "clickable"] btn2).
  repeat constructor; intros Hin; vm_compute in Hin;
    repeat (apply elem_of_cons in Hin as [Hin|Hin]; [discriminate|]);
    by apply elem_of_nil in Hin.
Defined.

Lemma isMatching_weaken (smaller larger element : UIHierarchy) :
  smaller ⊆ larger ->
  isMatching larger element = true -> isMatching smaller element = true.
Proof.
  intros Hsub. rewrite !isMatching_spec. intros Hm key v Hk.
  apply Hm. by eapply lookup_weaken.
Qed.

(** X21. Adding keys to a condition can only remove matches: when one
    condition is part of another, every record the larger condition retains is
    retained by the smaller one, and the records retained by the larger one
    are a subsequence of those retained by the smaller one. *)
Theorem larger_condition_retains_fewer (smaller larger : UIHierarchy)
  (elements : list UIHierarchy) :
  smaller ⊆ larger ->
  (forall element, isMatching larger element = true -> isMatching smaller element = true)
  /\ sublist (List.filter (isMatching larger) elements)
             (List.filter (isMatching smaller) elements).
Proof.
  intros Hsub. split; [intros element; by apply isMatching_weaken|].
  induction elements as [|e elements IH]; simpl; [constructor|].
  destruct (isMatching larger e) eqn:Hl.
  - rewrite (isMatching_weaken _ _ _ Hsub Hl). by constructor.
  - destruct (isMatching smaller e); [by constructor | done].
Qed.

Lemma larger_condition_retains_fewer_witness :
  sublist (List.filter (isMatching btn1) [btn1; btn2])
          (List.filter (isMatching {[ "clickable" := VBool true ]}) [btn1; btn2]).
Proof.
  apply (larger_condition_retains_fewer {[ "clickable" := VBool true ]} btn1
           [btn1; btn2]).
  apply map_subseteq_spec. intros key v [<- <-]%lookup_singleton_Some. reflexivity.
Defined.

(** ** Flattening, continued *)

Lemma coerce_inj (v w : string) : coerce v = coerce w -> v = w.
Proof.
  unfold coerce.
  destruct (String.eqb_spec v "false") as [Hvf|Hvf];
    destruct (String.eqb_spec w "false") as [Hwf|Hwf];
    destruct (String.eqb_spec v "true") as [Hvt|Hvt];
    destruct (String.eqb_spec w "true") as [Hwt|Hwt];
    intros Heq; congruence.
Qed.

Lemma coerce_never_token (v : string) :
  coerce v <> VStr "true" /\ coerce v <> VStr "false".
Proof.
  unfold coerce.
  destruct (String.eqb_spec v "false") as [->|Hvf]; [done|].
  destruct (String.eqb_spec v "true") as [->|Hvt]; [done|].
  split; congruence.
Qed.

Lemma extractNodes_records (n : xmlNode) :
  Forall (fun r => exists attrs, r = buildElement attrs) (extractNodes n []).
Proof.
  induction n as [attrs|attrs cs IH] using xmlNode_ind;
    rewrite extractNodes_unfold, app_nil_l; unfold ownRecord, recordsBelow;
    cbn [nodeAttrs nodeChildren flat_map]; apply Forall_app; split.
  - destruct attrs as [a|]; [|constructor].
    constructor; [by exists a | constructor].
  - constructor.
  - destruct attrs as [a|]; [|constructor].
    constructor; [by exists a | constructor].
  - induction IH as [|c cs Hc _ IHcs]; simpl; [constructor|].
    apply Forall_app. by split.
Qed.

(** X22. Flattening loses no attribute information: two attribute sets that
    give the same record are the same set. *)
Theorem buildElement_is_injective (attrs attrs' : gmap string string) :
  buildElement attrs = buildElement attrs' -> attrs = attrs'.
Proof.
  intros Heq. apply map_eq. intros key.
  pose proof (f_equal (fun m : UIHierarchy => m !! key) Heq) as Hk. simpl in Hk.
  rewrite !buildElement_lookup in Hk.
  destruct (attrs !! key) as [v|], (attrs' !! key) as [w|]; simpl in Hk; try done.
  injection Hk as Hk. by rewrite (coerce_inj _ _ Hk).
Qed.

Lemma buildElement_is_injective_witness :
  ({[ "index" := "1" ]} : gmap string string) = {[ "index" := "1" ]}.
Proof.
  apply (buildElement_is_injective {[ "index" := "1" ]} {[ "index" := "1" ]}).
  reflexivity.
Defined.

(** X23. No record of a flattened document holds the text "true" or the text
    "false", so a condition that expects one of these two texts for some key
    matches no record of a flattened document: flags have to be matched with
    booleans. *)
Theorem text_flags_never_match_flattened (root : xmlNode) (record : UIHierarchy)
  (conditions : UIHierarchy) (key : string) :
  In record (extractNodes root []) ->
  conditions !! key = Some (VStr "true") \/ conditions !! key = Some (VStr "false") ->
  record !! key <> Some (VStr "true")
  /\ record !! key <> Some (VStr "false")
  /\ isMatching conditions record = false.
Proof.
  intros Hin Hcond.
  pose proof (extractNodes_records root) as Hall.
  rewrite Forall_forall in Hall.
  destruct (Hall record ltac:(by apply list_elem_of_In)) as (attrs & ->).
  assert (buildElement attrs !! key <> Some (VStr "true")
          /\ buildElement attrs !! key <> Some (VStr "false")) as [Ht Hf].
  { rewrite buildElement_lookup. destruct (attrs !! key) as [v|]; simpl; [|done].
    destruct (coerce_never_token v). split; congruence. }
  split; [done|]. split; [done|].
  destruct (isMatching conditions (buildElement attrs)) eqn:Hm; [|done].
  apply isMatching_spec in Hm. destruct Hcond as [Hc|Hc]; apply Hm in Hc; done.
Qed.

Lemma text_flags_never_match_flattened_witness :
  isMatching {[ "checked" := VStr "true" ]} (buildElement {[ "text" := "ok"; "checked" := "true" ]})
  = false.
Proof.
  apply (text_flags_never_match_flattened sampleRoot
           (buildElement {[ "text" := "ok"; "checked" := "true" ]})
           {[ "checked" := VStr "true" ]} "checked").
  - right. left. reflexivity.
  - left. reflexivity.
Defined.

Lemma flat_map_preorder_records (cs : list xmlNode) :
  Forall (fun c => extractNodes c []
                   = List.map buildElement (omap nodeAttrs (preorder c))) cs ->
  flat_map (fun c => extractNodes c []) cs
  = List.map buildElement (omap nodeAttrs (flat_map preorder cs)).
Proof.
  induction 1 as [|c cs Hc _ IH]; simpl; [done|].
  by rewrite omap_app, map_app, Hc, IH.
Qed.

Lemma extractNodes_preorder (root : xmlNode) :
  extractNodes root [] = List.map buildElement (omap nodeAttrs (preorder root)).
Proof.
  induction root as [attrs|attrs cs IH] using xmlNode_ind;
    rewrite extractNodes_unfold, app_nil_l; unfold ownRecord, recordsBelow;
    cbn [nodeAttrs nodeChildren preorder].
  - destruct attrs; reflexivity.
  - rewrite (flat_map_preorder_records cs IH).
    destruct attrs; reflexivity.
Qed.

Lemma buildElement_coercedFrom (a : gmap string string) :
  coercedFrom a (buildElement a).
Proof.
  intros key. rewrite buildElement_lookup.
  destruct (a !! key) as [token|]; simpl; [|done]. unfold coerce.
  destruct (String.eqb_spec token "false") as [->|Hf]; [right; left; done|].
  destruct (String.eqb_spec token "true") as [->|Ht]; [left; done|].
  right. right. done.
Qed.

(** C7. Flattening coerces an attribute value to a boolean exactly when it is
    the token "true" or the token "false"; every other token, such as "True"
    and "1", stays the same string. The records that flattening appends are,
    one for one and in document order, the attribute sets of the nodes that
    carry attributes, each with its values coerced in this way. *)
Theorem coercion_exactly_true_false (root : xmlNode) (elements : list UIHierarchy)
  (v : string) :
  (coerce v = VBool true <-> v = "true")
  /\ (coerce v = VBool false <-> v = "false")
  /\ (v <> "true" -> v <> "false" -> coerce v = VStr v)
  /\ coerce "True" = VStr "True"
  /\ coerce "1" = VStr "1"
  /\ (forall attrs key, buildElement attrs !! key = coerce <$> attrs !! key)
  /\ exists emitted,
       extractNodes root elements = elements ++ emitted
       /\ Forall2 coercedFrom (omap nodeAttrs (preorder root)) emitted.
Proof.
  unfold coerce. repeat split; try reflexivity.
  - destruct (String.eqb_spec v "false"); [done|].
    destruct (String.eqb_spec v "true"); done.
  - by intros ->.
  - destruct (String.eqb_spec v "false"); [done|].
    destruct (String.eqb_spec v "true"); done.
  - by intros ->.
  - intros Ht Hf.
    destruct (String.eqb_spec v "false"); [done|].
    destruct (String.eqb_spec v "true"); done.
  - apply buildElement_lookup.
  - exists (extractNodes root []). split; [apply extractNodes_app|].
    rewrite extractNodes_preorder.
    induction (omap nodeAttrs (preorder root)) as [|a l IH]; simpl;
      constructor; [apply buildElement_coercedFrom | exact IH].
Qed.

Lemma coercion_exactly_true_false_witness :
  coerce "enabled" = VStr "enabled".
Proof.
  apply (coercion_exactly_true_false sampleRoot [] "enabled"); discriminate.
Defined.

Lemma omap_length_le {A B} (f : A -> option B) (l : list A) :
  (List.length (omap f l) <= List.length l)%nat.
Proof.
  induction l as [|x l IH]; [done|].
  change (omap f (x :: l))
    with (match f x with Some y => y :: omap f l | None => omap f l end).
  destruct (f x); cbn [List.length]; lia.
Qed.

(** X24. The flattened hierarchy has one record for each node that carries
    attributes, in document order: it is the list of the nodes of the tree,
    each node before its subtrees, with the nodes without attributes left out
    and every other node replaced by its record. *)
Theorem flattening_lists_attributed_nodes (root : xmlNode) :
  extractNodes root [] = List.map buildElement (omap nodeAttrs (preorder root))
  /\ (List.length (extractNodes root []) <= List.length (preorder root))%nat.
Proof.
  assert (extractNodes root []
          = List.map buildElement (omap nodeAttrs (preorder root))) as Heq.
  { induction root as [attrs|attrs cs IH] using xmlNode_ind;
      rewrite extractNodes_unfold, app_nil_l; unfold ownRecord, recordsBelow;
      cbn [nodeAttrs nodeChildren preorder].
    - destruct attrs; reflexivity.
    - rewrite (flat_map_preorder_records cs IH).
      destruct attrs; reflexivity. }
  split; [exact Heq|]. rewrite Heq, length_map. apply omap_length_le.
Qed.

(** ** Attribute flags, continued *)

(** X25. checkAttribute answers only when it is given an element and the
    Element Cache is non-empty as well; the answer is then read from the given
    element, true exactly when the attribute is the boolean true, and it does
    not depend on which element the cache holds. *)
Theorem checkAttribute_reads_given_element (attribute : attributeName)
  (element : option UIHierarchy) (this : CacheManagement) :
  (forall answer,
     checkAttribute attribute element this = Some answer
     <-> exists given v,
           element = Some given /\ is_Some (cachedElement this)
           /\ given !! attributeKey attribute = Some v
           /\ answer = bool_decide (v = VBool true))
  /\ (forall cached cached',
        checkAttribute attribute element (set_cachedElementValue (Some cached) this)
        = checkAttribute attribute element (set_cachedElementValue (Some cached') this)).
Proof.
  split.
  - intros answer. rewrite checkAttribute_cases.
    destruct element as [given|]; [|split; [done | by intros (? & ? & ? & _)]].
    destruct (cachedElement this) as [cached|];
      [|split; [done | by intros (? & ? & _ & [? ?] & _)]].
    rewrite readAttribute_cases.
    destruct (given !! attributeKey attribute) as [v|] eqn:Hv.
    + split.
      * intros [= <-]. by exists given, v.
      * intros (g & w & Hg & _ & Hw & ->). apply (inj Some) in Hg. subst g.
        rewrite Hv in Hw. apply (inj Some) in Hw. by subst w.
    + split; [done|]. intros (g & w & Hg & _ & Hw & _).
      apply (inj Some) in Hg. subst g. by rewrite Hv in Hw.
  - intros cached cached'. by rewrite !checkAttribute_cases.
Qed.

(** X26. A flag query on a flattened record, with some element in the cache,
    follows the token of the markup: it is true for the token "true", false
    for every other token (also for "True" and "1"), and null when the node
    has no such attribute. *)
Theorem flag_of_flattened_record (attribute : attributeName)
  (attrs : gmap string string) (this : CacheManagement) (cached : UIHierarchy) :
  cachedElement this = Some cached ->
  checkAttribute attribute (Some (buildElement attrs)) this
  = (fun token => String.eqb token "true") <$> attrs !! attributeKey attribute.
Proof.
  intros Hc. rewrite checkAttribute_cases, Hc, readAttribute_cases.
  rewrite buildElement_lookup.
  destruct (attrs !! attributeKey attribute) as [token|]; simpl; [|done].
  f_equal. unfold coerce.
  destruct (String.eqb_spec token "false") as [->|Hf]; [done|].
  destruct (String.eqb_spec token "true") as [->|Ht]; [done|].
  by apply bool_decide_eq_false_2.
Qed.

Lemma flag_of_flattened_record_witness :
  checkAttribute checked
    (Some (buildElement {[ "text" := "ok"; "checked" := "true" ]}))
    (set_cachedElementValue (Some btn1) newCache)
  = (fun token => String.eqb token "true")
      <$> ({[ "text" := "ok"; "checked" := "true" ]} : gmap string string)
          !! attributeKey checked.
Proof.
  apply (flag_of_flattened_record checked {[ "text" := "ok"; "checked" := "true" ]}
           (set_cachedElementValue (Some btn1) newCache) btn1).
  reflexivity.
Defined.

(** ** Display operations and recording *)

Lemma displayOperation_final (deviceId : string) (op : Device -> M unit)
  (device : Device) (this : CacheManagement) :
  In op (displayOperations deviceId) -> final (op device this) = this.
Proof.
  intros [<-|[<-|[<-|[<-|[<-|[]]]]]];
    unfold enableDarkMode, disableDarkMode, setSystemDefaultDisplayMode,
      setLandscapeMode, setPortraitMode, tryCatch, bind, execCommand, ret, throw;
    cbn [result final trace];
    repeat (match goal with
            | |- context [match ?d ?c with _ => _ end] =>
                destruct (d c); cbn [result final trace]
            end);
    reflexivity.
Qed.

(** X27. Changing the display mode or the orientation leaves the caches as
    they are: after enableDarkMode, disableDarkMode,
    setSystemDefaultDisplayMode, setLandscapeMode or setPortraitMode, whether
    it succeeded or not, a cached resolution and a cached hierarchy are still
    returned, without any command to the device. *)
Theorem display_operations_keep_caches (deviceId : string)
  (parseStringPromise : string -> outcome xmlDocument)
  (stringify : list UIHierarchy -> string)
  (writeFileSync : string -> string -> outcome unit)
  (op : Device -> M unit) (device device' : Device) (this : CacheManagement) :
  In op (displayOperations deviceId) ->
  final (op device this) = this
  /\ (forall resolution,
        cachedScreenResolution this = Some resolution ->
        getScreenResolution deviceId device' (final (op device this))
        = Run this [] (Returned (Some resolution)))
  /\ (forall elements format outputFilePath,
        cachedScreenHierarchy this = Some elements ->
        getScreenHierarchy deviceId parseStringPromise stringify writeFileSync
          device' format outputFilePath (final (op device this))
        = Run this [] (Returned (Flattened elements))).
Proof.
  intros Hop. rewrite (displayOperation_final _ _ _ _ Hop).
  split; [done|]. split.
  - intros resolution Hc. by apply getScreenResolution_hit.
  - intros elements format path Hc. by apply getScreenHierarchy_hit.
Qed.

Lemma display_operations_keep_caches_witness :
  final (setLandscapeMode "emulator-5554" brokenDevice
           (set_cachedScreenResolution (Some (mkResolution 1080 2400)) newCache))
  = set_cachedScreenResolution (Some (mkResolution 1080 2400)) newCache.
Proof.
  apply (display_operations_keep_caches "emulator-5554" sampleParser sampleStringify sampleWrite
           (setLandscapeMode "emulator-5554") brokenDevice sampleDevice
           (set_cachedScreenResolution (Some (mkResolution 1080 2400)) newCache)).
  right. right. right. left. reflexivity.
Defined.

(** X28. stopScreenRecording reports the first failure: it stops the
    recording and then pulls the file (from "/sdcard/screenrecord.mp4" to
    "./screenrecord.mp4" by default); when stopping fails the pull is not
    attempted; it resolves exactly when both commands succeed, otherwise it
    rejects with the error of the command that failed; the caches are left
    alone. *)
Theorem stopScreenRecording_reports_first_failure (deviceId : string)
  (device : Device) (remotePath localPath : option string) (this : CacheManagement) :
  let pkill := pkillCommand deviceId in
  let pull := pullCommand deviceId (default "/sdcard/screenrecord.mp4" remotePath)
                          (default "./screenrecord.mp4" localPath) in
  stopScreenRecording deviceId device remotePath localPath this
  = match device pkill with
    | Thrown e => Run this [ExecCommand pkill] (Thrown e)
    | Returned _ =>
        Run this [ExecCommand pkill; ExecCommand pull]
            match device pull with
            | Thrown e => Thrown e
            | Returned _ => Returned tt
            end
    end.
Proof.
  intros pkill pull. subst pkill pull.
  unfold stopScreenRecording, tryCatch, bind, execCommand, ret, throw.
  cbn [result final trace].
  destruct (device (pkillCommand deviceId)); cbn [result final trace]; [|done].
  destruct (device (pullCommand deviceId _ _)); cbn [result final trace]; done.
Qed.
